(** * Streak calculation of the BreakFree habit tracker

    A shallow embedding of [calculate_streak] (src/app.py, lines 42-112)
    and of the pieces of the Python runtime it relies on: [str.split],
    [datetime.strptime] with the format [%Y-%m-%d], [date] arithmetic,
    [collections.defaultdict] and [date.today].

    Calendar dates are represented by their proleptic Gregorian ordinal
    ([date.toordinal()]): subtraction of dates, [timedelta(days=1)] and the
    comparisons of the source become integer arithmetic on [Z].  Strings
    are Rocq strings, read as sequences of code points below 256. *)

From Stdlib Require Import ZArith Lia Ascii String.
From stdpp Require Import gmap sorting list strings.

Local Open Scope Z_scope.

#[local] Set Warnings "-clear-no-such-hyp".

(** ** Outcomes: a returned value or a raised exception *)

(** The exception classes that matter here.  [ValueError] and [IndexError]
    are the built-in classes raised by [strptime] and by indexing an empty
    list.  [InvalidEntryDate] is the class named by the design document;
    no statement of the source constructs it. *)
Inductive exception : Type :=
  | ValueError
  | IndexError
  | InvalidEntryDate.

Inductive outcome (A : Type) : Type :=
  | Return (v : A)
  | Raise (e : exception).
Arguments Return {A} v.
Arguments Raise {A} e.

#[global] Instance outcome_ret : MRet outcome := fun A v => Return v.

#[global] Instance outcome_bind : MBind outcome := fun A B k m =>
  match m with
  | Return v => k v
  | Raise e => Raise e
  end.

(** ** Calendar dates *)

Module PyDate.

Definition MINYEAR : Z := 1.
Definition MAXYEAR : Z := 9999.

Definition is_leap (y : Z) : bool :=
  (y mod 4 =? 0) && (negb (y mod 100 =? 0) || (y mod 400 =? 0)).

Definition days_in_month (y m : Z) : Z :=
  if m =? 2 then (if is_leap y then 29 else 28)
  else if (m =? 4) || (m =? 6) || (m =? 9) || (m =? 11) then 30
  else 31.

Definition days_before_year (y : Z) : Z :=
  let y1 := y - 1 in y1 * 365 + y1 / 4 - y1 / 100 + y1 / 400.

(** Number of days of year [y] that precede the first day of month [m]. *)
Definition days_before_month (y m : Z) : Z :=
  foldr (fun k acc => days_in_month y k + acc) 0 (seqZ 1 (m - 1)).

Definition ymd2ord (y m d : Z) : Z :=
  days_before_year y + days_before_month y m + d.

(** [date(y, m, d)]: the constructor checks its fields and raises
    [ValueError] when they do not name a day of the calendar. *)
Definition make_date (y m d : Z) : outcome Z :=
  if (MINYEAR <=? y) && (y <=? MAXYEAR) && (1 <=? m) && (m <=? 12)
     && (1 <=? d) && (d <=? days_in_month y m)
  then Return (ymd2ord y m d)
  else Raise ValueError.

End PyDate.

(** ** Strings: [str.split()] and [strptime(_, "%Y-%m-%d")] *)

Module PyStr.

Definition code (c : ascii) : Z := Z.of_nat (nat_of_ascii c).

(** Code points below 256 for which [str.isspace] holds; [str.split()]
    without argument splits on runs of these. *)
Definition is_space (c : ascii) : bool :=
  let n := code c in
  ((9 <=? n) && (n <=? 13)) || ((28 <=? n) && (n <=? 32))
  || (n =? 133) || (n =? 160).

(** [split_from cur s]: the words of [s], where [cur] holds, reversed,
    the characters of the word being read. *)
Fixpoint split_from (cur : list ascii) (s : list ascii) : list (list ascii) :=
  match s with
  | [] => match cur with [] => [] | _ => [rev cur] end
  | c :: s' =>
      if is_space c then
        match cur with
        | [] => split_from [] s'
        | _ => rev cur :: split_from [] s'
        end
      else split_from (c :: cur) s'
  end.

Definition split (s : string) : list (list ascii) :=
  split_from [] (list_ascii_of_string s).

(** [\d] on code points below 256. *)
Definition digit (c : ascii) : option Z :=
  let n := code c in
  if (48 <=? n) && (n <=? 57) then Some (n - 48) else None.

Definition in_range (lo hi : Z) (c : ascii) : option Z :=
  match digit c with
  | Some v => if (lo <=? v) && (v <=? hi) then Some v else None
  | None => None
  end.

Definition hyphen (c : ascii) : bool := code c =? 45.
Definition blank (c : ascii) : bool := code c =? 32.

(** The directives of the format are compiled to regular expressions whose
    alternatives are tried in order, with backtracking into the rest of
    the pattern; [k] is the rest of the pattern.
    [%m] is [1[0-2]|0[1-9]|[1-9]]. *)
Definition re_month {A} (s : list ascii) (k : Z → list ascii → option A)
  : option A :=
  let alt1 :=
    match s with
    | a :: b :: r =>
        match in_range 1 1 a, in_range 0 2 b with
        | Some x, Some y => k (10 * x + y) r
        | _, _ => None
        end
    | _ => None
    end in
  let alt2 :=
    match s with
    | a :: b :: r =>
        match in_range 0 0 a, in_range 1 9 b with
        | Some x, Some y => k (10 * x + y) r
        | _, _ => None
        end
    | _ => None
    end in
  let alt3 :=
    match s with
    | a :: r => match in_range 1 9 a with Some x => k x r | None => None end
    | _ => None
    end in
  match alt1 with
  | Some v => Some v
  | None => match alt2 with Some v => Some v | None => alt3 end
  end.

(** [%d] is [3[0-1]|[1-2]\d|0[1-9]|[1-9]| [1-9]]; it ends the pattern, so
    the first alternative that matches is the one taken. *)
Definition re_day (s : list ascii) : option (Z * list ascii) :=
  let two lo1 hi1 lo2 hi2 :=
    match s with
    | a :: b :: r =>
        match in_range lo1 hi1 a, in_range lo2 hi2 b with
        | Some x, Some y => Some (10 * x + y, r)
        | _, _ => None
        end
    | _ => None
    end in
  let one :=
    match s with
    | a :: r => match in_range 1 9 a with Some x => Some (x, r) | None => None end
    | _ => None
    end in
  let padded :=
    match s with
    | a :: b :: r =>
        if blank a then
          match in_range 1 9 b with Some y => Some (y, r) | None => None end
        else None
    | _ => None
    end in
  match two 3 3 0 1 with
  | Some v => Some v
  | None =>
      match two 1 2 0 9 with
      | Some v => Some v
      | None =>
          match two 0 0 1 9 with
          | Some v => Some v
          | None => match one with Some v => Some v | None => padded end
          end
      end
  end.

(** The match of [(\d\d\d\d)-(%m)-(%d)] at the start of [s]: the three
    fields and what is left of [s] after the match. *)
Definition re_ymd (s : list ascii) : option (Z * Z * Z * list ascii) :=
  match s with
  | y1 :: y2 :: y3 :: y4 :: h :: r =>
      match digit y1, digit y2, digit y3, digit y4 with
      | Some a, Some b, Some c, Some d =>
          if hyphen h then
            re_month r (fun m r' =>
              match r' with
              | h' :: r'' =>
                  if hyphen h' then
                    match re_day r'' with
                    | Some (dd, rest) =>
                        Some (1000 * a + 100 * b + 10 * c + d, m, dd, rest)
                    | None => None
                    end
                  else None
              | [] => None
              end)
          else None
      | _, _, _, _ => None
      end
  | _ => None
  end.

(** [datetime.strptime(s, "%Y-%m-%d").date()]: [ValueError] when the
    pattern does not match, when unconverted data remains after the
    match, or when the fields are not a calendar day. *)
Definition strptime (s : list ascii) : outcome Z :=
  match re_ymd s with
  | Some (y, m, d, []) => PyDate.make_date y m d
  | Some (_, _, _, _ :: _) => Raise ValueError
  | None => Raise ValueError
  end.

End PyStr.

(** ** Entries *)

(** A row of the [entries] table as [calculate_streak] reads it:
    [e['date']] is a string, [e['success']] an integer. *)
Record entry : Type := Entry { date : string; success : Z }.

(** [datetime.strptime(e['date'].split()[0], "%Y-%m-%d").date()] *)
Definition entry_date (e : entry) : outcome Z :=
  match PyStr.split (date e) with
  | [] => Raise IndexError
  | tok :: _ => PyStr.strptime tok
  end.

(** ** The three passes of [calculate_streak] *)

(** [day_status] is a [defaultdict(lambda: True)]: a finite map together
    with the rule that reading an absent key stores [True] under it and
    returns it.  [all_entry_dates] is a set of dates. *)

(** [day_status[d]]: the value read and the dictionary after the read. *)
Definition getitem (day_status : gmap Z bool) (d : Z) : bool * gmap Z bool :=
  match day_status !! d with
  | Some b => (b, day_status)
  | None => (true, <[d := true]> day_status)
  end.

(** *** Pass 1: status folding (lines 50-60) *)

(** The body of the loop over [entries], for one entry. *)
Definition fold_entry (acc : gmap Z bool * gset Z) (e : entry)
  : outcome (gmap Z bool * gset Z) :=
  let '(day_status, all_entry_dates) := acc in
  date_obj ← entry_date e;
  let all_entry_dates := {[date_obj]} ∪ all_entry_dates in
  let day_status :=
    if success e =? 0 then <[date_obj := false]> day_status else day_status in
  mret (day_status, all_entry_dates).

Fixpoint fold_entries (acc : gmap Z bool * gset Z) (entries : list entry)
  : outcome (gmap Z bool * gset Z) :=
  match entries with
  | [] => mret acc
  | e :: entries' => acc' ← fold_entry acc e; fold_entries acc' entries'
  end.

(** [sorted(all_entry_dates)] *)
Definition sorted (s : gset Z) : list Z := merge_sort Z.le (elements s).

(** *** Pass 2: longest streak (lines 66-83) *)

Record longest_state : Type := LongestState {
  day_status : gmap Z bool;
  longest_streak : Z;
  current_longest : Z;
  prev_day : option Z
}.

(** The body of the loop over [sorted_days], for one day.  A [date] object
    is always truthy, so [prev_day and ...] tests [prev_day is not None]. *)
Definition longest_step (s : longest_state) (day : Z) : longest_state :=
  let '(ok, day_status) := getitem (day_status s) day in
  if ok then
    let current_longest :=
      match prev_day s with
      | Some p => if day - p =? 1 then current_longest s + 1 else 1
      | None => 1
      end in
    LongestState day_status (Z.max (longest_streak s) current_longest)
                 current_longest (Some day)
  else
    LongestState day_status (longest_streak s) 0 (Some day).

Definition longest_pass (day_status : gmap Z bool) (sorted_days : list Z)
  : longest_state :=
  fold_left longest_step sorted_days (LongestState day_status 0 0 None).

(** *** Pass 3: current streak (lines 85-110) *)

(** [date.today()] reads the system clock.  The clock is modelled by the
    sequence of its readings: [clock n] is the date returned by the [n]-th
    call of [date.today()] made during one invocation (counting from 0);
    the number of calls made so far is threaded through the loop. *)
Definition clock : Type := nat → Z.

(** The loop [for _ in range(365)], with [fuel] iterations left, [reads]
    calls of [date.today()] made so far, and the loop variables
    [day_to_check] and [current_streak].  [first] is [sorted_days[0]]. *)
Fixpoint scan (today : clock) (day_status : gmap Z bool) (first : Z)
    (fuel : nat) (reads : nat) (day_to_check : Z) (current_streak : Z) : Z :=
  match fuel with
  | O => current_streak
  | S fuel' =>
      match day_status !! day_to_check with
      | Some true =>
          let current_streak := current_streak + 1 in
          if day_to_check <=? first then current_streak
          else scan today day_status first fuel' reads
                    (day_to_check - 1) current_streak
      | Some false => 0
      | None =>
          if day_to_check <? today reads then current_streak
          else if day_to_check =? today (S reads) then current_streak
          else if day_to_check <=? first then current_streak
          else scan today day_status first fuel' (S (S reads))
                    (day_to_check - 1) current_streak
      end
  end.

(** The lookback bound of the scan. *)
Definition LOOKBACK : nat := 365.

(** *** The function *)

Definition calculate_streak (today : clock) (entries : list entry)
  : outcome (Z * Z) :=
  match entries with
  | [] => mret (0, 0)
  | _ :: _ =>
      '(day_status0, all_entry_dates) ← fold_entries (∅, ∅) entries;
      let sorted_days := sorted all_entry_dates in
      match sorted_days with
      | [] => mret (0, 0)
      | first :: _ =>
          let s := longest_pass day_status0 sorted_days in
          let day_to_check := today 0%nat in
          let current_streak :=
            scan today (day_status s) first LOOKBACK 1 day_to_check 0 in
          mret (current_streak, longest_streak s)
      end
  end.

(** [compute_streaks entries today]: the function run while the clock
    stands still, every call of [date.today()] returning [today]. *)
Definition compute_streaks (entries : list entry) (today : Z) : outcome (Z * Z) :=
  calculate_streak (fun _ => today) entries.

(** * Vocabulary of the properties *)

(** The value [day_status[d]] evaluates to, whether or not [d] is a key. *)
Definition status (day_status : gmap Z bool) (d : Z) : bool :=
  default true (day_status !! d).

#[global] Instance exception_eq_dec : EqDecision exception.
Proof. solve_decision. Defined.

#[global] Instance outcome_eq_dec `{EqDecision A} : EqDecision (outcome A).
Proof. solve_decision. Defined.

(** An entry is well formed when its date string yields a date. *)
Definition well_formed (e : entry) : Prop := ∃ d, entry_date e = Return d.

#[global] Instance well_formed_dec e : Decision (well_formed e).
Proof.
  unfold well_formed. destruct (entry_date e) as [d|x].
  - left. by exists d.
  - right. intros [d H]. discriminate.
Defined.

(** [e] is an entry for the day [d]. *)
Definition entry_on (d : Z) (e : entry) : Prop := entry_date e = Return d.

(** [e] is an entry for the day [d] that records a failure. *)
Definition failure_on (d : Z) (e : entry) : Prop :=
  entry_date e = Return d ∧ success e = 0.

(** The [m] days ending on [p] are all among the days [l] and are all
    successes: a run of [m] consecutive success days. *)
Definition run_ending (st0 : gmap Z bool) (l : list Z) (p m : Z) : Prop :=
  ∀ i, 0 ≤ i < m → p - i ∈ l ∧ status st0 (p - i) = true.

(** What holds of the loop state after the days [l] have been visited. *)
Record pass_inv (st0 : gmap Z bool) (l : list Z) (s : longest_state)
  : Prop := PassInv {
  inv_prev : prev_day s = last l;
  inv_lookup : ∀ d, day_status s !! d =
                    if decide (d ∈ l) then Some (status st0 d) else st0 !! d;
  inv_low : 0 ≤ current_longest s ≤ longest_streak s;
  inv_high : longest_streak s ≤ Z.of_nat (length l);
  inv_current : ∀ p m, last l = Some p → run_ending st0 l p m →
                       m ≤ current_longest s;
  inv_longest : ∀ p m, p ∈ l → run_ending st0 l p m → m ≤ longest_streak s
}.

(** The entries are exactly a run of [N] consecutive days ending on
    [today], all successes: every entry is a success dated within the run,
    and every day of the run has an entry. *)
Definition success_run (es : list entry) (today N : Z) : Prop :=
  Forall (λ e, ∃ d, entry_date e = Return d ∧ today - N < d ≤ today
                    ∧ success e ≠ 0) es
  ∧ ∀ d, today - N < d ≤ today → Exists (entry_on d) es.

(** ** Dates, clocks and entries of the examples *)

(** [date(y, m, d)] as an ordinal, for the dates of the examples. *)
Definition ord (y m d : Z) : Z := PyDate.ymd2ord y m d.

(** Two successes, a failure, and a success today (2025-01-04). *)
Definition scenario : list entry :=
  [ Entry "2025-01-01" 1; Entry "2025-01-02" 1;
    Entry "2025-01-03" 0; Entry "2025-01-04" 1 ].

(** A clock that reads 2025-01-04 twice and 2025-01-05 from then on: the
    date changes between the two readings of the first iteration. *)
Definition midnight_clock : clock :=
  λ n, if (n <? 2)%nat then ord 2025 1 4 else ord 2025 1 5.

(** [n] written with two decimal digits, for [0 ≤ n < 100]. *)
Definition two_digits (n : Z) : string :=
  String (ascii_of_nat (Z.to_nat (48 + n / 10)))
    (String (ascii_of_nat (Z.to_nat (48 + n mod 10))) EmptyString).

(** [date(y, m, d).strftime("%Y-%m-%d")], the form in which the application
    writes the date of an entry, for the years 1000 to 9999. *)
Definition strftime (y m d : Z) : string :=
  two_digits (y / 100) +:+ two_digits (y mod 100) +:+ "-"
  +:+ two_digits m +:+ "-" +:+ two_digits d.

(** One success entry for every day of the year [y], in calendar order. *)
Definition year_of_successes (y : Z) : list entry :=
  m ← seqZ 1 12;
  d ← seqZ 1 (PyDate.days_in_month y m);
  [Entry (strftime y m d) 1].

(** Successes on 2025-01-01 to 2025-01-03 and on 2025-01-05 and 2025-01-06,
    in no particular order. *)
Definition two_runs : list entry :=
  [ Entry "2025-01-06" 1; Entry "2025-01-01" 1; Entry "2025-01-03 08:15:00" 1;
    Entry "2025-01-02" 1; Entry "2025-01-05" 1 ].

(** * Vocabulary of the further properties *)

(** [d] is a success day of [es]: some entry is dated [d] and no entry
    dated [d] records a failure. *)
Definition success_day (es : list entry) (d : Z) : Prop :=
  Exists (entry_on d) es ∧ ¬ Exists (failure_on d) es.

(** What the loop state of the longest-streak pass attains after the days
    [l]: both counters are the lengths of runs that are really there. *)
Record pass_attains (st0 : gmap Z bool) (l : list Z) (s : longest_state)
  : Prop := PassAttains {
  att_current : match last l with
                | Some p => run_ending st0 l p (current_longest s)
                | None => current_longest s = 0
                end;
  att_longest : ∃ p, run_ending st0 l p (longest_streak s)
}.

#[global] Instance entry_eq_dec : EqDecision entry.
Proof. solve_decision. Defined.

#[global] Instance entry_on_dec d e : Decision (entry_on d e).
Proof. unfold entry_on. apply _. Defined.

#[global] Instance failure_on_dec d e : Decision (failure_on d e).
Proof. unfold failure_on. apply _. Defined.

#[global] Instance success_day_dec es d : Decision (success_day es d).
Proof. unfold success_day. apply _. Defined.

(** A word: no character of it is whitespace. *)
Definition no_space (w : list ascii) : Prop :=
  Forall (λ c, PyStr.is_space c = false) w.

(** * The dashboard (lines 207-236) *)

(** A row of the [entries] table, with the columns named by the SQL
    statements of the application. *)
Record entry_row : Type := EntryRow {
  e_id : Z;
  e_habit_id : Z;
  e_date : string;
  e_success : Z;
  e_mood : string;
  e_journal : string
}.

#[global] Instance entry_row_eq_dec : EqDecision entry_row.
Proof. solve_decision. Defined.

(** What [calculate_streak] reads of a row: [e['date']] and [e['success']]. *)
Definition to_entry (e : entry_row) : entry := Entry (e_date e) (e_success e).

(** The body of the cleaning loop (lines 222-225):
    [e['date'] = e['date'].split()[0]]; [int(e['success'])] leaves an
    integer as it is. *)
Definition clean_row (e : entry_row) : outcome entry_row :=
  match PyStr.split (e_date e) with
  | [] => Raise IndexError
  | e_date' :: _ =>
      Return (EntryRow (e_id e) (e_habit_id e) (string_of_list_ascii e_date')
                       (e_success e) (e_mood e) (e_journal e))
  end.

Fixpoint clean_rows (entries : list entry_row) : outcome (list entry_row) :=
  match entries with
  | [] => mret []
  | e :: entries' =>
      e' ← clean_row e; entries'' ← clean_rows entries'; mret (e' :: entries'')
  end.

Definition MOODS : list string := ["happy"; "sad"; "neutral"; "anxious"; "calm"].

(** [{m: sum(1 for e in entries if e["mood"] == m) for m in moods}], as the
    list of its items in the order of insertion. *)
Definition mood_counts (entries : list entry_row) : list (string * Z) :=
  (λ m, (m, Z.of_nat (length (filter (λ e, e_mood e = m) entries)))) <$> MOODS.

(** What the loop body stores in [habit]. *)
Record habit_view : Type := HabitView {
  hv_entries : list entry_row;
  hv_current_streak : Z;
  hv_longest_streak : Z;
  hv_recent_entry : option entry_row;
  hv_mood_counts : list (string * Z)
}.

(** The body of the loop over the habits, for the rows [entries] of one
    habit; [today] holds the readings of the clock made by this call of
    [calculate_streak]. *)
Definition dashboard_habit (today : clock) (entries : list entry_row)
  : outcome habit_view :=
  entries ← clean_rows entries;
  '(current_streak, longest_streak) ← calculate_streak today (to_entry <$> entries);
  mret (HabitView entries current_streak longest_streak (head entries)
                  (mood_counts entries)).

(** The date string of a row has no word in it. *)
Definition blank_date (e : entry_row) : Prop := PyStr.split (e_date e) = [].

#[global] Instance blank_date_dec e : Decision (blank_date e).
Proof. unfold blank_date. apply _. Defined.

(** The sum of the counts of a dictionary of counts. *)
Definition total_count (counts : list (string * Z)) : Z :=
  foldr (λ kv acc, kv.2 + acc) 0 counts.

(** * The routes that write entries (lines 273-449) *)

(** The tables [habits] and [entries], with the columns named by the SQL
    statements; a table is the list of its rows.  The [users] table is
    touched by none of the routes modelled here.  Flash messages and the
    rendering of templates are left out: a response is the redirection or
    the page it stands for. *)
Record habit_row : Type := HabitRow {
  h_id : Z;
  h_user_id : Z;
  h_habit_name : string;
  h_start_date : string
}.

#[global] Instance habit_row_eq_dec : EqDecision habit_row.
Proof. solve_decision. Defined.

Record database : Type := Database {
  habits : list habit_row;
  entries : list entry_row
}.

Inductive method : Type := GET | POST.

(** The fields [success], [mood] and [journal] of the submitted form, as
    [request.form.get] returns them: [None] when the field is absent. *)
Record entry_form : Type := EntryForm {
  f_success : option string;
  f_mood : option string;
  f_journal : option string
}.

Inductive response : Type :=
  | RedirectLogin
  | RedirectDashboard
  | RedirectHabitHistory (habit_id : Z)
  | RenderAddEntry (habit_id : Z) (habit_name : string)
  | RenderEditEntry (entry : entry_row) (habit_name : string).

(** The truth value of a form field: [None] and the empty string are
    false. *)
Definition truthy (field : option string) : bool :=
  match field with
  | Some s => negb (bool_decide (s = ""))
  | None => false
  end.

(** The string of a field that is known to be there. *)
Definition field_text (field : option string) : string := default "" field.

(** [login_required] (lines 31-39): [session.get("user_id")] must be
    there and be true, which the integer [0] is not. *)
Definition logged_in (session_user_id : option Z) : option Z :=
  match session_user_id with
  | Some u => if u =? 0 then None else Some u
  | None => None
  end.

(** [datetime.today()]: the [n]-th reading made during a request, as year,
    month and day. *)
Definition datetime_clock : Type := nat → Z * Z * Z.

Definition strftime_ymd (t : Z * Z * Z) : string :=
  strftime t.1.1 t.1.2 t.2.

(** [SELECT * FROM habits WHERE id = ? AND user_id = ?] *)
Definition select_habit (db : database) (habit_id user_id : Z)
  : list habit_row :=
  filter (λ h, h_id h = habit_id ∧ h_user_id h = user_id) (habits db).

Section routes.

(** [int] applied to a form field, and the [id] the database gives to an
    inserted row of [entries]: both come from outside the application. *)
Variable int_of_field : string → outcome Z.
Variable new_entry_id : list entry_row → Z.

(** [add_entry] (lines 273-314). *)
Definition add_entry (today : datetime_clock) (db : database)
    (session_user_id : option Z) (habit_id : Z) (m : method)
    (form : entry_form) : outcome (response * database) :=
  match logged_in session_user_id with
  | None => mret (RedirectLogin, db)
  | Some user_id =>
      match select_habit db habit_id user_id with
      | [] => mret (RedirectDashboard, db)
      | habit0 :: _ =>
          match m with
          | POST =>
              if negb (truthy (f_success form)) || negb (truthy (f_mood form))
                 || negb (truthy (f_journal form))
              then mret (RenderAddEntry habit_id (h_habit_name habit0), db)
              else
                let today_date := strftime_ymd (today 0%nat) in
                let existing_entry :=
                  filter (λ e, e_habit_id e = habit_id ∧ e_date e = today_date)
                         (entries db) in
                match existing_entry with
                | _ :: _ => mret (RedirectDashboard, db)
                | [] =>
                    let date := strftime_ymd (today 1%nat) in
                    success ← int_of_field (field_text (f_success form));
                    let row :=
                      EntryRow (new_entry_id (entries db)) habit_id date success
                               (field_text (f_mood form))
                               (field_text (f_journal form)) in
                    mret (RedirectDashboard,
                          Database (habits db) (entries db ++ [row]))
                end
          | GET => mret (RenderAddEntry habit_id (h_habit_name habit0), db)
          end
      end
  end.

(** [delete_habit] (lines 367-381); the route accepts [POST] only. *)
Definition delete_habit (db : database) (session_user_id : option Z)
    (habit_id : Z) : response * database :=
  match logged_in session_user_id with
  | None => (RedirectLogin, db)
  | Some user_id =>
      match select_habit db habit_id user_id with
      | [] => (RedirectDashboard, db)
      | _ :: _ =>
          let entries' := filter (λ e, e_habit_id e ≠ habit_id) (entries db) in
          let habits' := filter (λ h, h_id h ≠ habit_id) (habits db) in
          (RedirectDashboard, Database habits' entries')
      end
  end.

(** [delete_entry] (lines 384-404); the route accepts [POST] only. *)
Definition delete_entry (db : database) (session_user_id : option Z)
    (entry_id : Z) : response * database :=
  match logged_in session_user_id with
  | None => (RedirectLogin, db)
  | Some user_id =>
      match filter (λ e, e_id e = entry_id) (entries db) with
      | [] => (RedirectDashboard, db)
      | entry0 :: _ =>
          let habit_id := e_habit_id entry0 in
          match select_habit db habit_id user_id with
          | [] => (RedirectDashboard, db)
          | _ :: _ =>
              let entries' := filter (λ e, e_id e ≠ entry_id) (entries db) in
              (RedirectHabitHistory habit_id, Database (habits db) entries')
          end
      end
  end.

(** The rows of [entries e JOIN habits h ON e.habit_id = h.id
    WHERE e.id = ? AND h.user_id = ?], as pairs. *)
Definition select_entry_of_user (db : database) (entry_id user_id : Z)
  : list (entry_row * habit_row) :=
  e ← entries db;
  h ← habits db;
  if bool_decide (e_habit_id e = h_id h ∧ e_id e = entry_id
                  ∧ h_user_id h = user_id)
  then [(e, h)] else [].

(** [UPDATE entries SET success = ?, mood = ?, journal = ? WHERE id = ?] *)
Definition update_entry (entry_id success : Z) (mood journal : string)
    (e : entry_row) : entry_row :=
  if bool_decide (e_id e = entry_id)
  then EntryRow (e_id e) (e_habit_id e) (e_date e) success mood journal
  else e.

(** [edit_entry] (lines 407-447).  The entry shown has its date cleaned
    for display, [entry['date'].split()[0]]. *)
Definition edit_entry (db : database) (session_user_id : option Z)
    (entry_id : Z) (m : method) (form : entry_form)
  : outcome (response * database) :=
  match logged_in session_user_id with
  | None => mret (RedirectLogin, db)
  | Some user_id =>
      match select_entry_of_user db entry_id user_id with
      | [] => mret (RedirectDashboard, db)
      | (entry0, habit0) :: _ =>
          entry ← clean_row entry0;
          match m with
          | POST =>
              if negb (truthy (f_success form)) || negb (truthy (f_mood form))
                 || negb (truthy (f_journal form))
              then mret (RenderEditEntry entry (h_habit_name habit0), db)
              else
                success ← int_of_field (field_text (f_success form));
                let entries' :=
                  update_entry entry_id success (field_text (f_mood form))
                               (field_text (f_journal form)) <$> entries db in
                mret (RedirectHabitHistory (e_habit_id entry),
                      Database (habits db) entries')
          | GET => mret (RenderEditEntry entry (h_habit_name habit0), db)
          end
      end
  end.

(** The requests of the four routes, and the route each one reaches. *)
Inductive request : Type :=
  | AddEntry (habit_id : Z) (m : method) (form : entry_form)
  | EditEntry (entry_id : Z) (m : method) (form : entry_form)
  | DeleteEntry (entry_id : Z)
  | DeleteHabit (habit_id : Z).

Definition handle (today : datetime_clock) (db : database)
    (session_user_id : option Z) (req : request)
  : outcome (response * database) :=
  match req with
  | AddEntry habit_id m form => add_entry today db session_user_id habit_id m form
  | EditEntry entry_id m form => edit_entry db session_user_id entry_id m form
  | DeleteEntry entry_id => mret (delete_entry db session_user_id entry_id)
  | DeleteHabit habit_id => mret (delete_habit db session_user_id habit_id)
  end.

End routes.

(** The user [user_id] has a habit with the identifier [habit_id]. *)
Definition owns (db : database) (user_id habit_id : Z) : Prop :=
  Exists (λ h, h_id h = habit_id ∧ h_user_id h = user_id) (habits db).

#[global] Instance owns_dec db user_id habit_id :
  Decision (owns db user_id habit_id).
Proof. unfold owns. apply _. Defined.

(** A day of the calendar in the years that [strftime] writes with four
    digits. *)
Definition calendar_day (t : Z * Z * Z) : Prop :=
  1000 ≤ t.1.1 ≤ 9999 ∧ 1 ≤ t.1.2 ≤ 12
  ∧ 1 ≤ t.2 ≤ PyDate.days_in_month t.1.1 t.1.2.

(** What the routes keep true of the database: identifiers are not shared,
    every entry belongs to a habit that is there, its date is a calendar
    day as [strftime] writes it, and a habit has at most one entry for a
    date. *)
Record db_ok (db : database) : Prop := DbOk {
  ok_habit_ids : NoDup (h_id <$> habits db);
  ok_entry_ids : NoDup (e_id <$> entries db);
  ok_habit_there :
    Forall (λ e, Exists (λ h, h_id h = e_habit_id e) (habits db)) (entries db);
  ok_dates :
    Forall (λ e, ∃ t, calendar_day t ∧ e_date e = strftime_ymd t) (entries db);
  ok_one_per_date : NoDup ((λ e, (e_habit_id e, e_date e)) <$> entries db)
}.

(** An [int] for the examples: the decimal digits of a field. *)
Definition int_of_digits (s : string) : outcome Z :=
  match list_ascii_of_string s with
  | [] => Raise ValueError
  | cs =>
      foldl (λ acc c, n ← acc;
                      match PyStr.digit c with
                      | Some k => mret (10 * n + k)
                      | None => Raise ValueError
                      end) (mret 0) cs
  end.

(** An identifier for the examples: one more than the largest in use. *)
Definition next_entry_id (rows : list entry_row) : Z :=
  1 + foldr (λ e acc, Z.max (e_id e) acc) 0 rows.

(** The database of the examples: two users with a habit each. *)
Definition example_db : database :=
  Database
    [HabitRow 1 10 "no sugar" "2025-01-01"; HabitRow 2 20 "run" "2025-01-02"]
    [EntryRow 1 1 "2025-01-03" 1 "happy" "good";
     EntryRow 2 2 "2025-01-03" 0 "sad" "skipped";
     EntryRow 3 1 "2025-01-04" 1 "calm" "fine"].

Definition example_form : entry_form :=
  EntryForm (Some "1") (Some "calm") (Some "a quiet day").

(** * The chat (lines 115-120 and 448-509) *)

(** [str.lower] on the characters of code below 256: the letters [A-Z] and
    the capital letters of Latin-1 (codes 192 to 222, the sign of code 215
    apart) are moved by 32. *)
Definition lower_char (c : ascii) : ascii :=
  let n := PyStr.code c in
  if ((65 <=? n) && (n <=? 90))
     || ((192 <=? n) && (n <=? 222) && negb (n =? 215))
  then ascii_of_nat (Z.to_nat (n + 32)) else c.

Definition lower (s : list ascii) : list ascii := lower_char <$> s.

(** [keyword in user_message]: the keyword stands at some position of the
    message. *)
Fixpoint starts_with (keyword s : list ascii) : bool :=
  match keyword, s with
  | [], _ => true
  | _ :: _, [] => false
  | k :: keyword', c :: s' =>
      bool_decide (k = c) && starts_with keyword' s'
  end.

Fixpoint contains (keyword s : list ascii) : bool :=
  starts_with keyword s
  || match s with
     | [] => false
     | _ :: s' => contains keyword s'
     end.

Definition any_keyword (keywords : list string) (user_message : list ascii)
  : bool :=
  existsb (λ keyword, contains (list_ascii_of_string keyword) user_message)
          keywords.

(** The five replies of the mock, by the intent they answer.  The texts of
    the replies and of the system message are left out: a reply is its
    intent with the user name filled in. *)
Inductive intent : Type := Struggle | Positive | Advice | Greeting | Fallback.

Inductive content : Type :=
  | SystemPrompt
  | UserText (text : string)
  | Reply (i : intent) (username : string).

Record message : Type := Message { role : string; body : content }.

Definition STRUGGLE : list string :=
  ["struggle"; "tempted"; "urge"; "crave"; "hard"; "relapse"].
Definition POSITIVE : list string :=
  ["good"; "success"; "win"; "happy"; "achieve"; "goal"; "focused"].
Definition ADVICE : list string :=
  ["how to"; "should i"; "what if"; "advice"; "plan"].
Definition GREETING : list string :=
  ["hi"; "hello"; "check in"; "listen"; "today"].

(** The [if]/[elif] chain of lines 478-491 on the lowered message. *)
Definition intent_of (user_message : list ascii) : intent :=
  if any_keyword STRUGGLE user_message then Struggle
  else if any_keyword POSITIVE user_message then Positive
  else if any_keyword ADVICE user_message then Advice
  else if any_keyword GREETING user_message then Greeting
  else Fallback.

(** [session["chat_messages"]]: [None] while the key is not in the
    session. *)
Definition chat_messages : Type := option (list message).

(** [initialize_chat_history] (lines 115-120). *)
Definition initialize_chat_history (chat : chat_messages) : chat_messages :=
  match chat with
  | None => Some [Message "system" SystemPrompt]
  | Some _ => chat
  end.

(** [get_ai_response] (lines 458-499) for a logged-in user whose request
    holds a JSON object; [user_row] are the user names selected from
    [users], [message] is the field [message] of the object if it is
    there.  The result is the reply sent and the history stored. *)
Definition get_ai_response (user_row : list string) (chat : chat_messages)
    (message : option string) : content * chat_messages :=
  let username := default "Pioneer" (head user_row) in
  let chat := initialize_chat_history chat in
  let user_message := lower (list_ascii_of_string (default "" message)) in
  let ai_reply := Reply (intent_of user_message) username in
  (ai_reply,
   (λ messages, messages ++ [Message "user" (UserText (default "" message))]
                         ++ [Message "assistant" ai_reply]) <$> chat).

(** [reset_chat] (lines 501-509). *)
Definition reset_chat (chat : chat_messages) : chat_messages :=
  match chat with
  | Some _ => initialize_chat_history None
  | None => None
  end.

(** The requests to the chat of one logged-in user, and the history each
    one leaves in the session. *)
Inductive chat_request : Type :=
  | OpenChat
  | Ask (message : option string)
  | ResetChat.

Definition chat_step (user_row : list string) (chat : chat_messages)
    (req : chat_request) : chat_messages :=
  match req with
  | OpenChat => initialize_chat_history chat
  | Ask message => (get_ai_response user_row chat message).2
  | ResetChat => reset_chat chat
  end.

Definition chat_session (user_row : list string) (reqs : list chat_request)
  : chat_messages :=
  foldl (chat_step user_row) None reqs.

(** The two messages that a question leaves in the history. *)
Definition exchange (user_row : list string) (req : chat_request)
  : list message :=
  match req with
  | Ask message =>
      [Message "user" (UserText (default "" message));
       Message "assistant" (get_ai_response user_row None message).1]
  | _ => []
  end.

(** The requests made since the last reset. *)
Definition since_reset (reqs : list chat_request) : list chat_request :=
  foldl (λ acc req, match req with ResetChat => [] | _ => acc ++ [req] end)
        [] reqs.

Definition opens_history (req : chat_request) : bool :=
  match req with ResetChat => false | _ => true end.

(** * Properties *)

(** ** Reading the dictionary *)

Lemma getitem_value st d : (getitem st d).1 = status st d.
Proof. unfold getitem, status. by destruct (st !! d). Qed.

Lemma getitem_lookup st d d' :
  (getitem st d).2 !! d' = if decide (d' = d) then Some (status st d) else st !! d'.
Proof.
  unfold getitem, status. destruct (st !! d) eqn:E; simpl.
  - case_decide; by subst.
  - rewrite lookup_insert. repeat case_decide; by subst.
Qed.

Lemma getitem_status st d d' : status (getitem st d).2 d' = status st d'.
Proof.
  unfold status at 1. rewrite getitem_lookup. case_decide; by subst.
Qed.

(** ** Pass 1 *)

Lemma entry_date_raises e x :
  entry_date e = Raise x → x = ValueError ∨ x = IndexError.
Proof.
  unfold entry_date, PyStr.strptime, PyDate.make_date.
  repeat case_match; intros; simplify_eq; auto.
Qed.

Lemma fold_entry_Return acc e st ds :
  fold_entry acc e = Return (st, ds) →
  ∃ d, entry_date e = Return d ∧ ds = {[d]} ∪ acc.2 ∧
       st = if success e =? 0 then <[d := false]> acc.1 else acc.1.
Proof.
  destruct acc as [st0 ds0]. unfold fold_entry.
  destruct (entry_date e) as [d|x]; simpl; [|done].
  intros [= <- <-]. eauto.
Qed.

Lemma fold_entries_Return es : ∀ acc st ds,
  fold_entries acc es = Return (st, ds) →
  Forall well_formed es
  ∧ (∀ d, d ∈ ds ↔ d ∈ acc.2 ∨ Exists (entry_on d) es)
  ∧ (∀ d, st !! d = if decide (Exists (failure_on d) es) then Some false
                    else acc.1 !! d).
Proof.
  induction es as [|e es IH]; intros [st0 ds0] st ds; cbn [fold_entries].
  - intros [= <- <-]. split; [constructor|]. split; intros d.
    + rewrite Exists_nil. tauto.
    + done.
  - destruct (fold_entry (st0, ds0) e) as [[st1 ds1]|x] eqn:E;
      cbn [mbind outcome_bind]; [|done].
    intros Hrest. apply fold_entry_Return in E as (d0 & Hd0 & -> & ->).
    apply IH in Hrest as (Hwf & Hds & Hst); simpl in *.
    split; [constructor; [by exists d0 | done]|]. split; intros d.
    + rewrite Hds, Exists_cons, elem_of_union, elem_of_singleton.
      unfold entry_on at 2. rewrite Hd0. naive_solver.
    + rewrite Hst. unfold failure_on at 2.
      destruct (decide (Exists (failure_on d) es)) as [Hex|Hnex].
      * rewrite decide_True; [done | by apply Exists_cons_tl].
      * destruct (Z.eqb_spec (success e) 0) as [Hs|Hs].
        -- rewrite lookup_insert. destruct (decide (d0 = d)) as [->|Hne].
           ++ rewrite decide_True; [done|]. by apply Exists_cons_hd.
           ++ rewrite decide_False; [done|].
              rewrite Exists_cons. unfold failure_on at 1. rewrite Hd0.
              naive_solver.
        -- rewrite decide_False; [done|].
           rewrite Exists_cons. unfold failure_on at 1. naive_solver.
Qed.

Lemma fold_entries_well_formed es : ∀ acc,
  Forall well_formed es → ∃ r, fold_entries acc es = Return r.
Proof.
  induction es as [|e es IH]; intros [st0 ds0]; simpl; [eauto|].
  intros [[d Hd] Hes]%Forall_cons. unfold fold_entry. rewrite Hd. simpl.
  apply IH, Hes.
Qed.

Lemma fold_entries_Raise es : ∀ acc x,
  fold_entries acc es = Raise x →
  ∃ good e rest, es = good ++ e :: rest ∧ Forall well_formed good
                 ∧ entry_date e = Raise x.
Proof.
  induction es as [|e es IH]; intros [st0 ds0] x; simpl; [done|].
  unfold fold_entry. destruct (entry_date e) as [d|y] eqn:E; simpl.
  - intros (good & e' & rest & -> & Hgood & He')%IH.
    exists (e :: good), e', rest. split_and!; [done| |done].
    constructor; [by exists d | done].
  - intros [= ->]. exists [], e, es. by split_and!.
Qed.

Lemma fold_entries_not_well_formed es acc :
  ¬ Forall well_formed es → ∃ x, fold_entries acc es = Raise x.
Proof.
  intros Hnot. destruct (fold_entries acc es) as [[st ds]|x] eqn:E; [|eauto].
  by apply fold_entries_Return in E as [? _].
Qed.

(** ** Sorted days *)

Lemma sorted_elem_of s d : d ∈ sorted s ↔ d ∈ s.
Proof. unfold sorted. by rewrite merge_sort_Permutation, elem_of_elements. Qed.

Lemma sorted_length s : length (sorted s) = size s.
Proof. unfold sorted. by rewrite merge_sort_Permutation. Qed.

Lemma le_sorted_NoDup_lt (l : list Z) :
  StronglySorted Z.le l → NoDup l → StronglySorted Z.lt l.
Proof.
  induction 1 as [|x l Hl IH Hx]; intros Hnd; [constructor|].
  apply NoDup_cons in Hnd as [Hnotin Hnd]. constructor; [by apply IH|].
  apply Forall_forall. intros y Hy.
  assert (x ≠ y) by (intros ->; done).
  rewrite Forall_forall in Hx. specialize (Hx y Hy). lia.
Qed.

Lemma sorted_increasing s : StronglySorted Z.lt (sorted s).
Proof.
  apply le_sorted_NoDup_lt.
  - apply Sorted_StronglySorted; [apply _|]. unfold sorted.
    apply (Sorted_merge_sort Z.le).
  - unfold sorted. rewrite merge_sort_Permutation. apply NoDup_elements.
Qed.

Lemma increasing_snoc_lt (l : list Z) d x :
  StronglySorted Z.lt (l ++ [d]) → x ∈ l → x < d.
Proof.
  rewrite StronglySorted_app. intros (H & _ & _) Hx. apply H; [done|].
  by apply list_elem_of_singleton.
Qed.

Lemma increasing_last_max (l : list Z) p x :
  StronglySorted Z.lt l → last l = Some p → x ∈ l → x ≤ p.
Proof.
  intros Hl [l' ->]%last_Some Hx. apply elem_of_app in Hx as [Hx|Hx].
  - pose proof (increasing_snoc_lt _ _ _ Hl Hx). lia.
  - apply list_elem_of_singleton in Hx. lia.
Qed.

Lemma increasing_head_min (l : list Z) first x :
  StronglySorted Z.lt (first :: l) → x ∈ first :: l → first ≤ x.
Proof.
  intros [Hall _]%StronglySorted_cons [->|Hx]%elem_of_cons; [lia|].
  rewrite Forall_forall in Hall. specialize (Hall x Hx). lia.
Qed.

(** ** Pass 2 *)

Lemma longest_step_eq s d :
  longest_step s d =
    let ok := status (day_status s) d in
    let cur :=
      if ok then
        match prev_day s with
        | Some p => if d - p =? 1 then current_longest s + 1 else 1
        | None => 1
        end
      else 0 in
    LongestState (getitem (day_status s) d).2
      (if ok then Z.max (longest_streak s) cur else longest_streak s)
      cur (Some d).
Proof.
  unfold longest_step. rewrite <- getitem_value.
  destruct (getitem (day_status s) d) as [[] st']; reflexivity.
Qed.

Lemma longest_pass_snoc st l d :
  longest_pass st (l ++ [d]) = longest_step (longest_pass st l) d.
Proof. unfold longest_pass. by rewrite fold_left_app. Qed.

Section pass_invariant.
Variable st0 : gmap Z bool.

Lemma pass_inv_status l s d :
  pass_inv st0 l s → status (day_status s) d = status st0 d.
Proof.
  intros [_ Hl _ _ _ _]. unfold status at 1. rewrite Hl. by case_decide.
Qed.

Lemma pass_inv_nil : pass_inv st0 [] (LongestState st0 0 0 None).
Proof.
  split; simpl; try done; try lia.
  intros p m Hp. by apply elem_of_nil in Hp.
Qed.

Lemma run_ending_shrink l d p m :
  StronglySorted Z.lt (l ++ [d]) → p ∈ l →
  run_ending st0 (l ++ [d]) p m → run_ending st0 l p m.
Proof.
  intros Hs Hp Hrun i Hi. destruct (Hrun i Hi) as [Hin Hst]. split; [|done].
  apply elem_of_app in Hin as [Hin|Hin]; [done|].
  apply list_elem_of_singleton in Hin.
  pose proof (increasing_snoc_lt _ _ _ Hs Hp). lia.
Qed.

Lemma pass_inv_snoc l d s :
  StronglySorted Z.lt (l ++ [d]) → pass_inv st0 l s →
  pass_inv st0 (l ++ [d]) (longest_step s d).
Proof.
  intros Hs Hinv. pose proof (pass_inv_status l s d Hinv) as Hst.
  destruct Hinv as [Hprev Hlook [Hlo1 Hlo2] Hhi Hcur Hlong].
  assert (Hsl : StronglySorted Z.lt l) by by apply StronglySorted_app_1_l in Hs.
  rewrite longest_step_eq, Hst. cbv zeta.
  set (cur := if status st0 d then _ else 0).
  assert (Hcur_bounds : 0 ≤ cur ≤ current_longest s + 1).
  { subst cur. repeat case_match; lia. }
  assert (Hcur_run : ∀ m, run_ending st0 (l ++ [d]) d m → m ≤ cur).
  { intros m Hrun. subst cur.
    destruct (status st0 d) eqn:Hd.
    - destruct (decide (m ≤ 1)) as [|Hm]; [repeat case_match; lia|].
      destruct (Hrun 1) as [Hin _]; [lia|].
      apply elem_of_app in Hin as [Hin|Hin];
        [|apply list_elem_of_singleton in Hin; lia].
      destruct (last l) as [p|] eqn:Hlast.
      2:{ apply last_None in Hlast. subst l. by apply elem_of_nil in Hin. }
      assert (p = d - 1) as ->.
      { pose proof (increasing_last_max l p (d - 1) Hsl Hlast Hin).
        assert (Hpl : p ∈ l) by (apply last_Some in Hlast as [l' ->]; set_solver).
        pose proof (increasing_snoc_lt l d p Hs Hpl). lia. }
      rewrite Hprev. replace (d - (d - 1) =? 1) with true by lia.
      cut (m - 1 ≤ current_longest s); [lia|].
      apply (Hcur (d - 1)); [done|]. intros i Hi.
      destruct (Hrun (i + 1)) as [Hin' Hst']; [lia|].
      replace (d - (i + 1)) with (d - 1 - i) in * by lia. split; [|done].
      apply elem_of_app in Hin' as [|Hin']; [done|].
      apply list_elem_of_singleton in Hin'. lia.
    - destruct (decide (m ≤ 0)) as [|Hm]; [lia|].
      destruct (Hrun 0) as [_ Hst0]; [lia|].
      replace (d - 0) with d in Hst0 by lia. congruence. }
  split; cbn [prev_day day_status longest_streak current_longest].
  - by rewrite last_snoc.
  - intros d'. rewrite getitem_lookup, Hlook, Hst.
    destruct (decide (d' = d)) as [->|Hne].
    + rewrite decide_True; [done | set_solver].
    + destruct (decide (d' ∈ l)).
      * rewrite decide_True; [done | set_solver].
      * rewrite decide_False; [done | set_solver].
  - destruct (status st0 d); lia.
  - rewrite length_app. simpl. destruct (status st0 d); lia.
  - intros p m Hlast Hrun. rewrite last_snoc in Hlast.
    injection Hlast as <-. by apply Hcur_run.
  - intros p m Hp Hrun. apply elem_of_app in Hp as [Hp|Hp].
    + pose proof (Hlong p m Hp (run_ending_shrink l d p m Hs Hp Hrun)).
      destruct (status st0 d); lia.
    + apply list_elem_of_singleton in Hp as ->.
      pose proof (Hcur_run m Hrun). destruct (status st0 d) eqn:Hd; [lia|].
      subst cur. lia.
Qed.

Lemma pass_inv_longest_pass l :
  StronglySorted Z.lt l → pass_inv st0 l (longest_pass st0 l).
Proof.
  induction l as [|d l IH] using rev_ind; intros Hs.
  - apply pass_inv_nil.
  - rewrite longest_pass_snoc. apply pass_inv_snoc; [done|].
    by apply IH, (StronglySorted_app_1_l _ l [d]).
Qed.

End pass_invariant.

(** ** Pass 3 *)

Section scan_any_clock.
Variables (today : clock) (st : gmap Z bool) (first : Z).

(** Each iteration adds at most one day to the streak. *)
Lemma scan_bounds fuel : ∀ reads day c,
  0 ≤ c →
  0 ≤ scan today st first fuel reads day c ≤ c + Z.of_nat fuel.
Proof.
  induction fuel as [|fuel IH]; intros reads day c Hc; cbn [scan]; [lia|].
  repeat case_match; try lia.
  - specialize (IH reads (day - 1) (c + 1)). lia.
  - specialize (IH (S (S reads)) (day - 1) c). lia.
Qed.

(** Over days that are all recorded successes the scan runs down to the
    first recorded day, whatever the clock says. *)
Lemma scan_success_run fuel : ∀ reads day c,
  first ≤ day →
  (∀ d, first ≤ d ≤ day → st !! d = Some true) →
  day - first < Z.of_nat fuel →
  scan today st first fuel reads day c = c + (day - first + 1).
Proof.
  induction fuel as [|fuel IH]; intros reads day c Hle Hrun Hfuel;
    cbn [scan]; [lia|].
  rewrite Hrun by lia. destruct (Z.leb_spec day first); [lia|].
  rewrite IH; [lia|lia| |lia]. intros d Hd. apply Hrun. lia.
Qed.

(** Over a run of recorded successes at least as long as the iterations
    left, every iteration counts a day. *)
Lemma scan_success_run_cut fuel : ∀ reads day c,
  (∀ d, first ≤ d ≤ day → st !! d = Some true) →
  Z.of_nat fuel ≤ day - first + 1 →
  scan today st first fuel reads day c = c + Z.of_nat fuel.
Proof.
  induction fuel as [|fuel IH]; intros reads day c Hrun Hfuel;
    cbn [scan]; [lia|].
  rewrite Hrun by lia. destruct (Z.leb_spec day first); [lia|].
  rewrite IH; [lia| |lia]. intros d Hd. apply Hrun. lia.
Qed.

(** The scan consults the clock only through the readings it makes: at
    most two in each iteration. *)
Lemma scan_ext (today' : clock) fuel : ∀ reads day c,
  (∀ n, (reads ≤ n < reads + 2 * fuel)%nat → today n = today' n) →
  scan today st first fuel reads day c = scan today' st first fuel reads day c.
Proof.
  induction fuel as [|fuel IH]; intros reads day c Heq; cbn [scan]; [done|].
  rewrite (Heq reads), (Heq (S reads)) by lia.
  rewrite (IH reads), (IH (S (S reads))); [done|..];
    intros n Hn; apply Heq; lia.
Qed.

End scan_any_clock.

Section scan_frozen_clock.
Variables (now : Z) (st : gmap Z bool) (first : Z).

(** While the clock stands still, the days counted are the consecutive
    days ending today, each a recorded success. *)
Lemma scan_frozen_run fuel : ∀ reads day c,
  day ≤ now → c = now - day →
  (∀ i, 0 ≤ i < c → st !! (now - i) = Some true) →
  ∀ i, 0 ≤ i < scan (fun _ => now) st first fuel reads day c →
       st !! (now - i) = Some true.
Proof.
  induction fuel as [|fuel IH]; intros reads day c Hday Hc Hrun;
    cbn [scan]; [done|].
  assert (Hrun' : ∀ b, st !! day = Some b → b = true →
            ∀ i, 0 ≤ i < c + 1 → st !! (now - i) = Some true).
  { intros b Hb -> i Hi. destruct (decide (i = c)) as [->|];
      [by replace (now - c) with day by lia | apply Hrun; lia]. }
  destruct (st !! day) as [[]|] eqn:E.
  - destruct (Z.leb_spec day first); [by eapply Hrun'|].
    apply IH; [lia|lia|by eapply Hrun'].
  - lia.
  - destruct (Z.ltb_spec day now); [done|].
    destruct (Z.eqb_spec day now); [done|lia].
Qed.

(** A day without entry stops the scan. *)
Lemma scan_frozen_unlogged fuel reads day c :
  day ≤ now → st !! day = None →
  scan (fun _ => now) st first (S fuel) reads day c = c.
Proof.
  intros Hday Hnone. cbn [scan]. rewrite Hnone.
  destruct (Z.ltb_spec day now); [done|].
  destruct (Z.eqb_spec day now); [done|lia].
Qed.

End scan_frozen_clock.

(** ** The function as a whole *)

Lemma fold_entries_from_empty es st0 ds :
  fold_entries (∅, ∅) es = Return (st0, ds) →
  Forall well_formed es
  ∧ (∀ d, d ∈ ds ↔ Exists (entry_on d) es)
  ∧ (∀ d, st0 !! d = if decide (Exists (failure_on d) es) then Some false
                     else None).
Proof.
  intros (Hwf & Hds & Hst)%fold_entries_Return. split_and!; [done|..].
  - intros d. rewrite Hds. simpl. set_solver.
  - intros d. rewrite Hst. simpl. by rewrite lookup_empty.
Qed.

(** The state of the dictionary when the scan starts: its keys are the
    recorded days, each with its resolved status. *)
Lemma scanned_status es st0 ds d :
  fold_entries (∅, ∅) es = Return (st0, ds) →
  day_status (longest_pass st0 (sorted ds)) !! d =
    if decide (d ∈ ds) then Some (status st0 d) else None.
Proof.
  intros (_ & Hds & Hst)%fold_entries_from_empty.
  rewrite (inv_lookup st0 _ _ (pass_inv_longest_pass st0 _ (sorted_increasing ds))).
  destruct (decide (d ∈ ds)) as [Hin|Hnotin].
  - rewrite decide_True; [done | by apply sorted_elem_of].
  - rewrite decide_False by by rewrite sorted_elem_of.
    rewrite Hst, decide_False; [done|]. intros Hex. apply Hnotin, Hds.
    eapply Exists_impl; [done|]. by intros e [? _].
Qed.

Lemma fold_entries_dates_nonempty e es st0 ds :
  fold_entries (∅, ∅) (e :: es) = Return (st0, ds) → sorted ds ≠ [].
Proof.
  intros (Hwf & Hds & _)%fold_entries_from_empty Hs.
  apply Forall_cons in Hwf as [[d Hd] _].
  assert (d ∈ sorted ds) as Hin by (apply sorted_elem_of, Hds; by left).
  rewrite Hs in Hin. by apply elem_of_nil in Hin.
Qed.

(** The result for a non-empty list of entries whose dates are all read. *)
Lemma calculate_streak_cons today e es st0 ds first rest :
  fold_entries (∅, ∅) (e :: es) = Return (st0, ds) →
  sorted ds = first :: rest →
  calculate_streak today (e :: es) =
    Return (scan today (day_status (longest_pass st0 (sorted ds))) first
                 LOOKBACK 1 (today 0%nat) 0,
            longest_streak (longest_pass st0 (sorted ds))).
Proof.
  intros E Hs. unfold calculate_streak. rewrite E. cbn [mbind outcome_bind].
  rewrite Hs. reflexivity.
Qed.

(** How a normal return comes about. *)
Lemma calculate_streak_Return today es c l :
  calculate_streak today es = Return (c, l) →
  (es = [] ∧ c = 0 ∧ l = 0)
  ∨ ∃ st0 ds first rest,
      es ≠ []
      ∧ fold_entries (∅, ∅) es = Return (st0, ds)
      ∧ sorted ds = first :: rest
      ∧ c = scan today (day_status (longest_pass st0 (sorted ds))) first
                 LOOKBACK 1 (today 0%nat) 0
      ∧ l = longest_streak (longest_pass st0 (sorted ds)).
Proof.
  destruct es as [|e es]; [intros [= <- <-]; auto|].
  destruct (fold_entries (∅, ∅) (e :: es)) as [[st0 ds]|x] eqn:E.
  2:{ unfold calculate_streak. by rewrite E. }
  destruct (sorted ds) as [|first rest] eqn:Hs.
  { by apply fold_entries_dates_nonempty in E. }
  rewrite (calculate_streak_cons _ _ _ _ _ _ _ E Hs).
  intros H. right. exists st0, ds, first, rest.
  split_and!; [done|done|done|congruence|congruence].
Qed.

(** Well-formed entries are all it takes for a normal return. *)
Lemma calculate_streak_well_formed today es :
  Forall well_formed es → ∃ c l, calculate_streak today es = Return (c, l).
Proof.
  intros Hwf. unfold calculate_streak. destruct es as [|e es]; [by eexists _, _|].
  destruct (fold_entries_well_formed (e :: es) (∅, ∅) Hwf) as [[st0 ds] ->].
  cbn [mbind outcome_bind]. destruct (sorted ds); by eexists _, _.
Qed.

Lemma calculate_streak_Raise today es x :
  calculate_streak today es = Raise x →
  ∃ good e rest, es = good ++ e :: rest ∧ Forall well_formed good
                 ∧ entry_date e = Raise x.
Proof.
  unfold calculate_streak. destruct es as [|e es]; [done|].
  destruct (fold_entries (∅, ∅) (e :: es)) as [[st0 ds]|y] eqn:E;
    cbn [mbind outcome_bind].
  - by destruct (sorted ds).
  - intros [= ->]. by eapply fold_entries_Raise.
Qed.

(** * The claims *)

(** Closes a side condition about concrete dates by evaluation. *)
Ltac by_evaluation :=
  repeat first
    [ progress intros
    | apply Forall_nil_2
    | apply Forall_cons_2
    | eexists ];
  vm_compute; first [ reflexivity | discriminate | congruence | lia ].

(** ** Empty input *)

(** C4: for every clock (hence for every [today]) the function applied to
    an empty list of entries raises nothing and returns [(0, 0)]. *)
Theorem empty_entries_give_zero (today : clock) :
  calculate_streak today [] = Return (0, 0).
Proof. reflexivity. Qed.

(** ** A failure day met by the backward scan *)

(** A recorded failure ends the scan with the counter set back to [0]:
    the successes counted so far are dropped. *)
Lemma scan_failure_resets today st first fuel reads day c :
  st !! day = Some false →
  scan today st first (S fuel) reads day c = 0.
Proof. intros H. cbn [scan]. by rewrite H. Qed.

(** C1: on the scenario of the claim (successes on 2025-01-01, 2025-01-02
    and 2025-01-04, a failure on 2025-01-03, today 2025-01-04) the function
    returns the current streak [0], not [1], and the longest streak [2];
    and whenever an iteration of the scan looks at a day recorded as a
    failure, the scan ends with the current streak [0], whatever it had
    counted before. *)
Theorem failure_day_resets_current_streak :
  compute_streaks scenario (ord 2025 1 4) = Return (0, 2)
  ∧ ∀ (today : clock) (st : gmap Z bool) (first : Z) (fuel reads : nat)
      (day counted : Z),
      scan today (<[day := false]> st) first (S fuel) reads day counted = 0.
Proof.
  split; [vm_compute; reflexivity|].
  intros. apply scan_failure_resets. by rewrite lookup_insert_eq.
Qed.

(** ** No entry for today *)

(** C2: when no entry is dated today, the scan stops in its first iteration
    and the current streak returned is [0], whatever was logged before. *)
Theorem unlogged_today_gives_zero (es : list entry) (today : Z) :
  Forall well_formed es →
  Forall (λ e, entry_date e ≠ Return today) es →
  ∃ l, compute_streaks es today = Return (0, l).
Proof.
  intros Hwf Hnot. unfold compute_streaks.
  destruct (calculate_streak_well_formed (λ _, today) es Hwf) as (c & l & Hr).
  exists l. rewrite Hr. f_equal. f_equal.
  apply calculate_streak_Return in Hr
    as [(_ & -> & _)|(st0 & ds & first & rest & _ & E & _ & -> & _)]; [done|].
  change LOOKBACK with (S 364). apply scan_frozen_unlogged; [done|].
  rewrite (scanned_status es _ _ _ E). rewrite decide_False; [done|].
  apply fold_entries_from_empty in E as (_ & Hds & _). rewrite Hds.
  intros Hex. apply Exists_exists in Hex as (e & He & Hon).
  rewrite Forall_forall in Hnot. by apply (Hnot e He).
Qed.

Lemma unlogged_today_gives_zero_witness :
  ∃ l, compute_streaks [Entry "2025-01-02" 1; Entry "2025-01-03" 1]
                       (ord 2025 1 4) = Return (0, l).
Proof. apply unlogged_today_gives_zero; by_evaluation. Defined.

(** ** The clock *)

(** C3 (as the code has it): [calculate_streak] takes the entries only and
    reads the clock itself, once before the scan and up to twice in each of
    the 365 iterations.  When all these readings give the same date [now],
    the result is the value of [compute_streaks] at the entries and [now]:
    invocations on identical entries during which the clock stands at the
    same date return identical results. *)
Theorem frozen_clock_determines_result (today : clock) (now : Z)
    (es : list entry) :
  (∀ n, (n ≤ 2 * 365)%nat → today n = now) →
  calculate_streak today es = compute_streaks es now.
Proof.
  intros Hnow. unfold compute_streaks.
  destruct es as [|e es]; [reflexivity|].
  destruct (fold_entries (∅, ∅) (e :: es)) as [[st0 ds]|x] eqn:E.
  2:{ unfold calculate_streak. rewrite E. cbn [mbind outcome_bind].
      reflexivity. }
  destruct (sorted ds) as [|first rest] eqn:Hs.
  { destruct (fold_entries_dates_nonempty _ _ _ _ E Hs). }
  rewrite (calculate_streak_cons today _ _ _ _ _ _ E Hs).
  rewrite (calculate_streak_cons (λ _, now) _ _ _ _ _ _ E Hs).
  rewrite (scan_ext today _ _ (λ _, now)).
  - rewrite Hnow by lia. reflexivity.
  - intros n Hn. apply Hnow. unfold LOOKBACK in Hn. lia.
Qed.

Lemma frozen_clock_determines_result_witness :
  calculate_streak (λ n, if (n <=? 730)%nat then ord 2025 1 4 else ord 2025 1 5)
    [Entry "2025-01-04" 1; Entry "2025-01-03" 1]
  = compute_streaks [Entry "2025-01-04" 1; Entry "2025-01-03" 1] (ord 2025 1 4).
Proof.
  apply frozen_clock_determines_result. intros n Hn.
  destruct (Nat.leb_spec n 730); [reflexivity|lia].
Defined.

Lemma frozen_clock_run :
  calculate_streak (λ _, ord 2025 1 4) [Entry "2025-01-03" 1] = Return (0, 1).
Proof. vm_compute. reflexivity. Qed.

Lemma midnight_clock_run :
  calculate_streak midnight_clock [Entry "2025-01-03" 1] = Return (1, 1).
Proof. vm_compute. reflexivity. Qed.

(** C3 (as stated) fails: the result is not a function of the entries and
    of the date at which the invocation starts.  On one success entry dated
    2025-01-03, an invocation started on 2025-01-04 returns the current
    streak [0] when the clock stands still and [1] when the date changes
    during the first iteration of the scan. *)
Lemma result_depends_on_clock_readings :
  ¬ ∃ f : list entry → Z → outcome (Z * Z),
      ∀ (today : clock) (es : list entry),
        calculate_streak today es = f es (today 0%nat).
Proof.
  intros [f Hf].
  pose proof (Hf (λ _, ord 2025 1 4) [Entry "2025-01-03" 1]) as H1.
  pose proof (Hf midnight_clock [Entry "2025-01-03" 1]) as H2.
  rewrite frozen_clock_run in H1. rewrite midnight_clock_run in H2.
  change (midnight_clock 0%nat) with (ord 2025 1 4) in H2.
  cbv beta in H1. rewrite <- H2 in H1. discriminate.
Qed.

(** ** The lookback bound *)

(** An iteration looks at one day only, so the scan never learns the status
    of a day that lies [fuel] days or more before the day it starts from. *)
Lemma scan_window today st st' first fuel : ∀ reads day c,
  (∀ d, day - Z.of_nat fuel < d ≤ day → st !! d = st' !! d) →
  scan today st first fuel reads day c = scan today st' first fuel reads day c.
Proof.
  induction fuel as [|fuel IH]; intros reads day c Hsame; cbn [scan]; [done|].
  rewrite <- (Hsame day) by lia.
  assert (∀ d, day - 1 - Z.of_nat fuel < d ≤ day - 1 → st !! d = st' !! d)
    by (intros d Hd; apply Hsame; lia).
  repeat case_match; auto.
Qed.

(** C8: the scan is a loop of 365 iterations, each adding at most one day,
    so for every clock and every list of well-formed entries the function
    returns, and the current streak it returns is at most 365, however
    far back the recorded history goes. *)
Theorem lookback_bound (today : clock) (es : list entry) :
  Forall well_formed es →
  ∃ c l, calculate_streak today es = Return (c, l) ∧ 0 ≤ c ≤ 365.
Proof.
  intros Hwf.
  destruct (calculate_streak_well_formed today es Hwf) as (c & l & Hr).
  exists c, l. split; [done|].
  apply calculate_streak_Return in Hr
    as [(_ & -> & _)|(st0 & ds & first & rest & _ & _ & _ & -> & _)]; [lia|].
  pose proof (scan_bounds today (day_status (longest_pass st0 (sorted ds)))
                first LOOKBACK 1 (today 0%nat) 0) as Hb.
  change (Z.of_nat LOOKBACK) with 365 in Hb. lia.
Qed.

(** The 366 days of 2024 all logged as successes, seen on 2024-12-31: the
    current streak stops at 365. *)
Lemma lookback_bound_witness :
  ∃ c l, calculate_streak (λ _, ord 2024 12 31) (year_of_successes 2024)
         = Return (c, l) ∧ 0 ≤ c ≤ 365.
Proof.
  apply lookback_bound.
  apply (bool_decide_unpack _). vm_compute. exact I.
Defined.

(** ** Current streak against longest streak *)

(** The days counted by the scan, while the clock stands still, form a run
    of consecutive recorded successes ending today. *)
Lemma frozen_scan_counts_a_run es st0 ds first now :
  fold_entries (∅, ∅) es = Return (st0, ds) →
  run_ending st0 (sorted ds) now
    (scan (λ _, now) (day_status (longest_pass st0 (sorted ds))) first
          LOOKBACK 1 now 0).
Proof.
  intros E i Hi.
  eapply scan_frozen_run in Hi; [|lia|lia|lia].
  rewrite (scanned_status es _ _ _ E) in Hi.
  rewrite sorted_elem_of. by case_decide; simplify_eq.
Qed.

(** C10: whenever the function returns, with the clock standing at [today],
    the longest streak returned is at least the current streak returned. *)
Theorem current_le_longest (es : list entry) (today c l : Z) :
  compute_streaks es today = Return (c, l) → c ≤ l.
Proof.
  intros Hr.
  apply calculate_streak_Return in Hr
    as [(_ & -> & ->)|(st0 & ds & first & rest & _ & E & Hs & -> & ->)]; [lia|].
  cbv beta.
  pose proof (pass_inv_longest_pass st0 _ (sorted_increasing ds)) as Hinv.
  pose proof (frozen_scan_counts_a_run es st0 ds first today E) as Hrun.
  set (c := scan _ _ _ _ _ _ _) in *.
  destruct (decide (c ≤ 0)) as [|Hpos].
  - pose proof (inv_low _ _ _ Hinv). lia.
  - apply (inv_longest _ _ _ Hinv today); [|done].
    destruct (Hrun 0) as [Hin _]; [lia|].
    by replace (today - 0) with today in Hin by lia.
Qed.

Lemma current_le_longest_witness :
  compute_streaks two_runs (ord 2025 1 6) = Return (2, 3) ∧ 2 ≤ 3.
Proof.
  assert (H : compute_streaks two_runs (ord 2025 1 6) = Return (2, 3))
    by (vm_compute; reflexivity).
  split; [exact H | exact (current_le_longest _ _ _ _ H)].
Defined.

(** ** A run of success days ending today *)

Lemma success_run_fold es today N st0 ds :
  success_run es today N →
  fold_entries (∅, ∅) es = Return (st0, ds) →
  (∀ d, d ∈ ds ↔ today - N < d ≤ today) ∧ (∀ d, status st0 d = true).
Proof.
  intros [Hall Hevery] (_ & Hds & Hst)%fold_entries_from_empty.
  rewrite Forall_forall in Hall. split; intros d.
  - rewrite Hds. split; [|apply Hevery].
    intros (e & He & Hon)%Exists_exists.
    destruct (Hall e He) as (d' & Hd' & Hrange & _).
    unfold entry_on in Hon. assert (d = d') as -> by congruence. done.
  - unfold status. rewrite Hst, decide_False; [done|].
    intros (e & He & Hon & Hfail)%Exists_exists.
    by destruct (Hall e He) as (_ & _ & _ & Hs).
Qed.

Lemma size_interval (ds : gset Z) (hi N : Z) :
  0 ≤ N → (∀ d, d ∈ ds ↔ hi - N < d ≤ hi) → Z.of_nat (size ds) = N.
Proof.
  intros HN Hds.
  assert (ds = list_to_set (seqZ (hi - N + 1) N)) as ->.
  { apply set_eq. intros d. rewrite Hds, elem_of_list_to_set, elem_of_seqZ. lia. }
  rewrite size_list_to_set by apply NoDup_seqZ. rewrite length_seqZ. lia.
Qed.

(** C6 (with the lookback bound): for a run of [N] consecutive success
    days ending exactly on [today], with [N ≥ 1] and no other entries, the
    function returns the longest streak [N] and the current streak [N] cut
    at the 365 days the scan looks back: [min N 365]. *)
Theorem success_run_streaks (es : list entry) (today N : Z) :
  1 ≤ N →
  success_run es today N →
  compute_streaks es today = Return (Z.min N 365, N).
Proof.
  intros HN Hrun. unfold compute_streaks.
  assert (Hwf : Forall well_formed es).
  { destruct Hrun as [Hall _]. eapply Forall_impl; [exact Hall|].
    intros e (d & Hd & _). by exists d. }
  destruct es as [|e es].
  { destruct Hrun as [_ Hevery]. specialize (Hevery today).
    rewrite Exists_nil in Hevery. exfalso. apply Hevery. lia. }
  destruct (fold_entries_well_formed (e :: es) (∅, ∅) Hwf) as [[st0 ds] E].
  destruct (success_run_fold _ _ _ _ _ Hrun E) as [Hds Hst].
  destruct (sorted ds) as [|first rest] eqn:Hs.
  { destruct (fold_entries_dates_nonempty _ _ _ _ E Hs). }
  rewrite (calculate_streak_cons _ _ _ _ _ _ _ E Hs). cbv beta.
  pose proof (sorted_increasing ds) as Hinc.
  pose proof (pass_inv_longest_pass st0 _ Hinc) as Hinv.
  assert (Hfirst : first = today - N + 1).
  { rewrite Hs in Hinc.
    assert (first ∈ ds) as Hin by (apply sorted_elem_of; rewrite Hs; by left).
    apply Hds in Hin.
    assert (today - N + 1 ∈ first :: rest) as Hlow
      by (rewrite <- Hs; apply sorted_elem_of, Hds; lia).
    pose proof (increasing_head_min _ _ _ Hinc Hlow). lia. }
  assert (Hdays : ∀ d, first ≤ d ≤ today →
            day_status (longest_pass st0 (sorted ds)) !! d = Some true).
  { intros d Hd. rewrite (scanned_status _ _ _ _ E), decide_True, Hst; [done|].
    apply Hds. lia. }
  assert (Hscan : scan (λ _, today)
                    (day_status (longest_pass st0 (sorted ds))) first
                    LOOKBACK 1 today 0 = Z.min N 365).
  { destruct (decide (N ≤ 365)) as [Hshort|Hlong].
    - rewrite scan_success_run;
        [lia|lia|exact Hdays|change (Z.of_nat LOOKBACK) with 365; lia].
    - rewrite scan_success_run_cut;
        [|exact Hdays|change (Z.of_nat LOOKBACK) with 365; lia].
      change (Z.of_nat LOOKBACK) with 365. lia. }
  assert (Hlong : longest_streak (longest_pass st0 (sorted ds)) = N).
  { apply Z.le_antisymm.
    - pose proof (inv_high _ _ _ Hinv) as Hhi. rewrite sorted_length in Hhi.
      rewrite (size_interval ds today N) in Hhi; [done|lia|done].
    - apply (inv_longest _ _ _ Hinv today).
      + apply sorted_elem_of, Hds. lia.
      + intros i Hi. split; [|apply Hst]. apply sorted_elem_of, Hds. lia. }
  rewrite Hscan, Hlong. reflexivity.
Qed.

(** A list of success entries whose dates are, in order, the [N] days
    ending on [today] is such a run. *)
Lemma success_run_intro es today N :
  entry_date <$> es = Return <$> seqZ (today - N + 1) N →
  Forall (λ e, success e ≠ 0) es →
  success_run es today N.
Proof.
  intros Hdates Hsucc. split.
  - apply Forall_forall. intros e He.
    rewrite Forall_forall in Hsucc. specialize (Hsucc e He).
    apply list_elem_of_lookup in He as [i Hi].
    assert ((entry_date <$> es) !! i = Some (entry_date e)) as Hlook
      by (by rewrite list_lookup_fmap, Hi).
    rewrite Hdates, list_lookup_fmap in Hlook.
    destruct (seqZ (today - N + 1) N !! i) as [d|] eqn:Hd; [|done].
    injection Hlook as Hlook. apply lookup_seqZ in Hd as [-> Hlt].
    eexists. split; [done|]. split; [lia|done].
  - intros d Hd. apply Exists_exists.
    assert (seqZ (today - N + 1) N !! Z.to_nat (d - (today - N + 1)) = Some d)
      as Hlook by (apply lookup_seqZ; lia).
    apply (f_equal (fmap (M := option) Return)) in Hlook.
    rewrite <- list_lookup_fmap, <- Hdates, list_lookup_fmap in Hlook.
    destruct (es !! Z.to_nat (d - (today - N + 1))) as [e|] eqn:He; [|done].
    injection Hlook as Hlook. exists e. split; [|done].
    apply list_elem_of_lookup. eauto.
Qed.

Lemma leap_year_run :
  success_run (year_of_successes 2024) (ord 2024 12 31) 366.
Proof.
  apply success_run_intro; [vm_compute; reflexivity|].
  apply (bool_decide_unpack _). vm_compute. exact I.
Qed.

Lemma success_run_streaks_witness :
  compute_streaks
    [ Entry "2025-02-27" 1; Entry "2025-02-28" 1; Entry "2025-03-01" 1 ]
    (ord 2025 3 1) = Return (Z.min 3 365, 3)
  ∧ compute_streaks (year_of_successes 2024) (ord 2024 12 31)
    = Return (Z.min 366 365, 366).
Proof.
  split.
  - apply (success_run_streaks _ (ord 2025 3 1) 3); [lia|].
    apply success_run_intro; [vm_compute; reflexivity|].
    apply (bool_decide_unpack _). vm_compute. exact I.
  - apply (success_run_streaks _ (ord 2024 12 31) 366); [lia|].
    exact leap_year_run.
Defined.

Lemma leap_year_streaks :
  compute_streaks (year_of_successes 2024) (ord 2024 12 31) = Return (365, 366).
Proof. vm_compute. reflexivity. Qed.

(** C6 (as stated, for every [N ≥ 1]) fails: the 366 days of 2024, all
    logged as successes and seen on 2024-12-31, give the current streak
    [365] and the longest streak [366]. *)
Lemma long_run_is_cut_at_lookback :
  ¬ ∀ (es : list entry) (today N : Z),
      1 ≤ N → success_run es today N →
      compute_streaks es today = Return (N, N).
Proof.
  intros H.
  pose proof (H (year_of_successes 2024) (ord 2024 12 31) 366
                ltac:(lia) leap_year_run) as X.
  rewrite leap_year_streaks in X. discriminate X.
Qed.

(** ** Several entries for one date *)

Lemma failure_on_Permutation d es es' :
  es ≡ₚ es' → Exists (failure_on d) es ↔ Exists (failure_on d) es'.
Proof.
  intros Hperm. rewrite !Exists_exists.
  split; intros (e & He & Hf); exists e; split; try done.
  - by rewrite <- Hperm.
  - by rewrite Hperm.
Qed.

Lemma entry_on_Permutation d es es' :
  es ≡ₚ es' → Exists (entry_on d) es ↔ Exists (entry_on d) es'.
Proof.
  intros Hperm. rewrite !Exists_exists.
  split; intros (e & He & Hf); exists e; split; try done.
  - by rewrite <- Hperm.
  - by rewrite Hperm.
Qed.

(** C5: for well-formed entries the status folding returns, and the status
    it resolves for a date is failure exactly when some entry for that date
    has [success] equal to [0], and success otherwise; entries given in
    another order resolve to the same dictionary and the same set of
    dates. *)
Theorem duplicate_dates_resolve_to_failure (es : list entry) :
  Forall well_formed es →
  ∃ st ds,
    fold_entries (∅, ∅) es = Return (st, ds)
    ∧ (∀ d, (getitem st d).1 = false ↔ Exists (failure_on d) es)
    ∧ (∀ es', es ≡ₚ es' → fold_entries (∅, ∅) es' = Return (st, ds)).
Proof.
  intros Hwf.
  destruct (fold_entries_well_formed es (∅, ∅) Hwf) as [[st ds] E].
  exists st, ds. split; [done|].
  pose proof (fold_entries_from_empty _ _ _ E) as (_ & Hds & Hst).
  split.
  - intros d. rewrite getitem_value. unfold status. rewrite Hst.
    case_decide; naive_solver.
  - intros es' Hperm.
    assert (Hwf' : Forall well_formed es') by by rewrite <- Hperm.
    destruct (fold_entries_well_formed es' (∅, ∅) Hwf') as [[st' ds'] E'].
    pose proof (fold_entries_from_empty _ _ _ E') as (_ & Hds' & Hst').
    rewrite E'. f_equal. f_equal.
    + apply map_eq. intros d. rewrite Hst, Hst'.
      pose proof (failure_on_Permutation d _ _ Hperm).
      repeat case_decide; naive_solver.
    + apply set_eq. intros d. rewrite Hds, Hds'.
      symmetry. by apply entry_on_Permutation.
Qed.

Lemma duplicate_dates_resolve_to_failure_witness :
  ∃ st ds,
    fold_entries (∅, ∅) [Entry "2025-01-03" 1; Entry "2025-01-03 21:40:00" 0]
      = Return (st, ds)
    ∧ (∀ d, (getitem st d).1 = false
            ↔ Exists (failure_on d)
                [Entry "2025-01-03" 1; Entry "2025-01-03 21:40:00" 0])
    ∧ (∀ es', [Entry "2025-01-03" 1; Entry "2025-01-03 21:40:00" 0] ≡ₚ es' →
              fold_entries (∅, ∅) es' = Return (st, ds)).
Proof.
  apply duplicate_dates_resolve_to_failure.
  apply (bool_decide_unpack _). vm_compute. exact I.
Defined.

(** ** Gaps in the longest-streak pass *)

Lemma longest_pass_status st l d :
  status (day_status (longest_pass st l)) d = status st d.
Proof.
  induction l as [|x l IH] using rev_ind; [done|].
  rewrite longest_pass_snoc, longest_step_eq. cbn [day_status].
  by rewrite getitem_status.
Qed.

Lemma longest_pass_prev st l x :
  prev_day (longest_pass st (l ++ [x])) = Some x.
Proof. by rewrite longest_pass_snoc, longest_step_eq. Qed.

(** C7: when the day [d] visited by the longest-streak pass does not
    directly follow the day [p] visited before it, the running counter
    after [d] is [1] if [d] is a success and [0] if it is a failure,
    whatever the counter was before the gap: it is [1] unless the
    dictionary records a failure for [d], and [0] when it does. *)
Theorem gap_resets_longest_counter (st : gmap Z bool) (pre : list Z) (p d : Z) :
  d - p ≠ 1 →
  current_longest (longest_pass st (pre ++ [p; d]))
  = (if (getitem st d).1 then 1 else 0)
  ∧ (st !! d ≠ Some false →
     current_longest (longest_pass st (pre ++ [p; d])) = 1)
  ∧ (st !! d = Some false →
     current_longest (longest_pass st (pre ++ [p; d])) = 0).
Proof.
  intros Hgap.
  assert (Hreset : current_longest (longest_pass st (pre ++ [p; d]))
                   = if (getitem st d).1 then 1 else 0).
  { replace (pre ++ [p; d]) with ((pre ++ [p]) ++ [d])
      by by rewrite <- app_assoc.
    rewrite longest_pass_snoc, longest_step_eq. cbn [current_longest].
    rewrite longest_pass_status, longest_pass_prev, getitem_value.
    destruct (Z.eqb_spec (d - p) 1); [done|]. by destruct (status st d). }
  split_and!; [exact Hreset|..]; rewrite Hreset, getitem_value; unfold status.
  - intros Hok. by destruct (st !! d) as [[]|].
  - by intros ->.
Qed.

Lemma gap_resets_longest_counter_witness :
  current_longest
    (longest_pass {[ ord 2025 1 9 := false ]}
       ([ord 2025 1 1; ord 2025 1 2] ++ [ord 2025 1 3; ord 2025 1 6]))
  = 1
  ∧ current_longest
      (longest_pass {[ ord 2025 1 6 := false ]}
         ([ord 2025 1 1; ord 2025 1 2] ++ [ord 2025 1 3; ord 2025 1 6]))
    = 0.
Proof.
  split.
  - refine (proj1 (proj2 (gap_resets_longest_counter
                            {[ ord 2025 1 9 := false ]}
                            [ord 2025 1 1; ord 2025 1 2]
                            (ord 2025 1 3) (ord 2025 1 6) _)) _).
    + vm_compute. discriminate.
    + vm_compute. discriminate.
  - refine (proj2 (proj2 (gap_resets_longest_counter
                            {[ ord 2025 1 6 := false ]}
                            [ord 2025 1 1; ord 2025 1 2]
                            (ord 2025 1 3) (ord 2025 1 6) _)) _).
    + vm_compute. discriminate.
    + vm_compute. reflexivity.
Defined.

(** ** Malformed dates *)

Example unparseable_token_ValueError :
  entry_date (Entry "yesterday" 1) = Raise ValueError.
Proof. reflexivity. Qed.

Example no_such_day_ValueError :
  entry_date (Entry "2025-02-30" 1) = Raise ValueError.
Proof. vm_compute. reflexivity. Qed.

Example blank_date_IndexError :
  entry_date (Entry "   " 1) = Raise IndexError.
Proof. reflexivity. Qed.

(** Only the first word of the date string is read. *)
Example trailing_text_ignored :
  entry_date (Entry "2025-01-03 not a time" 1) = Return (ord 2025 1 3).
Proof. vm_compute. reflexivity. Qed.

Lemma strptime_raises s x : PyStr.strptime s = Raise x → x = ValueError.
Proof.
  unfold PyStr.strptime, PyDate.make_date.
  repeat case_match; intros; by simplify_eq.
Qed.

Lemma entry_date_IndexError e :
  entry_date e = Raise IndexError ↔ PyStr.split (date e) = [].
Proof.
  unfold entry_date. destruct (PyStr.split (date e)) as [|tok toks]; [done|].
  split; [|done]. by intros ?%strptime_raises.
Qed.

(** A date string with a first word that is not a calendar day makes
    [strptime] raise. *)
Lemma entry_date_ValueError e :
  PyStr.split (date e) ≠ [] → ¬ well_formed e →
  entry_date e = Raise ValueError.
Proof.
  unfold well_formed, entry_date.
  destruct (PyStr.split (date e)) as [|tok toks]; [done|]. intros _ Hbad.
  destruct (PyStr.strptime tok) as [d|x] eqn:Htok; [exfalso; eauto|].
  by apply strptime_raises in Htok as ->.
Qed.

(** The loop over the entries stops at the first entry whose date fails. *)
Lemma fold_entries_first_malformed good e rest x : ∀ acc,
  Forall well_formed good → entry_date e = Raise x →
  fold_entries acc (good ++ e :: rest) = Raise x.
Proof.
  induction good as [|g good IH]; intros [st ds] Hgood He;
    cbn [app fold_entries]; unfold fold_entry.
  - by rewrite He.
  - apply Forall_cons in Hgood as [[d Hd] Hgood]. rewrite Hd.
    cbn [mbind outcome_bind]. by apply IH.
Qed.

Lemma calculate_streak_first_malformed today good e rest x :
  Forall well_formed good → entry_date e = Raise x →
  calculate_streak today (good ++ e :: rest) = Raise x.
Proof.
  intros Hgood He. unfold calculate_streak.
  destruct (good ++ e :: rest) as [|e0 es0] eqn:Heq; [by destruct good|].
  rewrite <- Heq, (fold_entries_first_malformed good e rest x _ Hgood He).
  reflexivity.
Qed.

Lemma first_malformed_entry es :
  Exists (λ e, ¬ well_formed e) es →
  ∃ good e rest, es = good ++ e :: rest ∧ Forall well_formed good
                 ∧ ¬ well_formed e.
Proof.
  induction es as [|e0 es IH]; intros Hbad; [by apply Exists_nil in Hbad|].
  destruct (decide (well_formed e0)) as [Hwf|Hnwf].
  - apply Exists_cons in Hbad as [?|Hbad]; [done|].
    destruct (IH Hbad) as (good & e & rest & -> & Hgood & He).
    exists (e0 :: good), e, rest. split_and!; [done| |done].
    by constructor.
  - exists [], e0, es. by split_and!.
Qed.

(** C9 (as the code has it): the loop over the entries stops at the first
    entry whose date string fails, and the function then returns no result
    and raises the built-in exception of the failing step: [IndexError],
    from [split()[0]], when the date string of that entry has no word, and
    [ValueError], from [strptime], when its first word is not a calendar
    day written as [%Y-%m-%d].  Every list with a malformed entry has such
    a first one; when every entry is well formed the function raises
    nothing and returns a result. *)
Theorem malformed_date_raises_builtin (today : clock) (es : list entry) :
  (∀ good e rest,
     es = good ++ e :: rest → Forall well_formed good →
     PyStr.split (date e) = [] →
     calculate_streak today es = Raise IndexError)
  ∧ (∀ good e rest,
       es = good ++ e :: rest → Forall well_formed good →
       PyStr.split (date e) ≠ [] → ¬ well_formed e →
       calculate_streak today es = Raise ValueError)
  ∧ (Exists (λ e, ¬ well_formed e) es →
     ∃ good e rest,
       es = good ++ e :: rest ∧ Forall well_formed good ∧ ¬ well_formed e
       ∧ calculate_streak today es
         = Raise (if decide (PyStr.split (date e) = [])
                  then IndexError else ValueError))
  ∧ (Forall well_formed es →
     ∃ c l, calculate_streak today es = Return (c, l)).
Proof.
  split_and!; [| | |apply calculate_streak_well_formed].
  - intros good e rest -> Hgood Hblank.
    apply calculate_streak_first_malformed; [done|].
    by apply entry_date_IndexError.
  - intros good e rest -> Hgood Hword Hbad.
    apply calculate_streak_first_malformed; [done|].
    by apply entry_date_ValueError.
  - intros (good & e & rest & -> & Hgood & Hbad)%first_malformed_entry.
    exists good, e, rest. split_and!; [done..|].
    apply calculate_streak_first_malformed; [done|].
    case_decide as Hblank.
    + by apply entry_date_IndexError.
    + by apply entry_date_ValueError.
Qed.

Lemma malformed_date_raises_builtin_witness :
  calculate_streak (λ _, ord 2025 1 4)
    [Entry "2025-01-03" 1; Entry "   " 1; Entry "03/01/2025" 1]
  = Raise IndexError
  ∧ calculate_streak (λ _, ord 2025 1 4)
      [Entry "2025-01-03" 1; Entry "03/01/2025" 1; Entry "   " 1]
    = Raise ValueError
  ∧ (∃ good e rest,
       [Entry "2025-01-03" 1; Entry "2025-02-30" 1]
         = good ++ e :: rest ∧ Forall well_formed good ∧ ¬ well_formed e
       ∧ calculate_streak (λ _, ord 2025 1 4)
           [Entry "2025-01-03" 1; Entry "2025-02-30" 1]
         = Raise (if decide (PyStr.split (date e) = [])
                  then IndexError else ValueError))
  ∧ (∃ c l, calculate_streak (λ _, ord 2025 1 4)
              [Entry "2025-01-03" 1; Entry "2025-01-04" 1] = Return (c, l)).
Proof.
  split_and!.
  - apply (proj1 (malformed_date_raises_builtin _ _)
             [Entry "2025-01-03" 1] (Entry "   " 1) [Entry "03/01/2025" 1]).
    + reflexivity.
    + apply (bool_decide_unpack _). vm_compute. exact I.
    + vm_compute. reflexivity.
  - apply (proj1 (proj2 (malformed_date_raises_builtin _ _))
             [Entry "2025-01-03" 1] (Entry "03/01/2025" 1) [Entry "   " 1]).
    + reflexivity.
    + apply (bool_decide_unpack _). vm_compute. exact I.
    + vm_compute. discriminate.
    + intros [d Hd]. vm_compute in Hd. discriminate Hd.
  - apply (proj1 (proj2 (proj2 (malformed_date_raises_builtin _ _)))).
    apply Exists_cons_tl, Exists_cons_hd. intros [d Hd].
    vm_compute in Hd. discriminate Hd.
  - apply (proj2 (proj2 (proj2 (malformed_date_raises_builtin _ _)))).
    apply (bool_decide_unpack _). vm_compute. exact I.
Defined.

(** C9 (as stated) fails: an entry with an unparseable date makes the
    function raise [ValueError], not [InvalidEntryDate]. *)
Lemma unparseable_date_is_not_InvalidEntryDate :
  ¬ ∀ (es : list entry) (today : Z),
      Exists (λ e, ¬ well_formed e) es →
      compute_streaks es today = Raise InvalidEntryDate.
Proof.
  intros H.
  assert (Hbad : Exists (λ e, ¬ well_formed e) [Entry "yesterday" 1]).
  { apply Exists_cons_hd. intros [d Hd]. discriminate Hd. }
  specialize (H _ (ord 2025 1 4) Hbad). discriminate H.
Qed.

(** * Further properties of [calculate_streak] *)

(** ** Success days *)

Lemma success_day_status es st0 ds d :
  fold_entries (∅, ∅) es = Return (st0, ds) →
  success_day es d ↔ d ∈ ds ∧ status st0 d = true.
Proof.
  intros (_ & Hds & Hst)%fold_entries_from_empty.
  unfold success_day, status. rewrite Hds, Hst.
  case_decide; naive_solver.
Qed.

Lemma run_ending_success_days es st0 ds p m :
  fold_entries (∅, ∅) es = Return (st0, ds) →
  run_ending st0 (sorted ds) p m ↔ ∀ i, 0 ≤ i < m → success_day es (p - i).
Proof.
  intros E. unfold run_ending. split; intros H i Hi.
  - apply (success_day_status _ _ _ _ E). rewrite <- sorted_elem_of. by apply H.
  - rewrite sorted_elem_of. apply (success_day_status _ _ _ _ E). by apply H.
Qed.

(** ** The longest streak is attained *)

Lemma run_ending_weaken st0 l l' p m :
  (∀ x, x ∈ l → x ∈ l') → run_ending st0 l p m → run_ending st0 l' p m.
Proof. intros Hsub Hrun i Hi. destruct (Hrun i Hi). auto. Qed.

Lemma run_ending_shorter st0 l p m m' :
  m' ≤ m → run_ending st0 l p m → run_ending st0 l p m'.
Proof. intros Hle Hrun i Hi. apply Hrun. lia. Qed.

Lemma pass_attains_nil st0 : pass_attains st0 [] (LongestState st0 0 0 None).
Proof. split; simpl; [done|]. exists 0. intros i Hi. lia. Qed.

Lemma pass_attains_snoc st0 l d s :
  prev_day s = last l →
  (∀ x, status (day_status s) x = status st0 x) →
  pass_attains st0 l s →
  pass_attains st0 (l ++ [d]) (longest_step s d).
Proof.
  intros Hprev Hst [Hcur [q Hlong]].
  assert (Hsub : ∀ x, x ∈ l → x ∈ l ++ [d]) by set_solver.
  rewrite longest_step_eq, Hst. cbv zeta.
  set (cur := if status st0 d then _ else 0).
  assert (Hcur' : run_ending st0 (l ++ [d]) d cur).
  { subst cur. destruct (status st0 d) eqn:Hd; [|intros i Hi; lia].
    assert (Hone : run_ending st0 (l ++ [d]) d 1).
    { intros i Hi. replace (d - i) with d by lia. split; [set_solver|done]. }
    rewrite Hprev. destruct (last l) as [p|] eqn:Hlast; [|done].
    destruct (Z.eqb_spec (d - p) 1) as [Hcons|]; [|done].
    intros i Hi. destruct (decide (i = 0)) as [->|Hne].
    - replace (d - 0) with d by lia. split; [set_solver|done].
    - replace (d - i) with (p - (i - 1)) by lia.
      apply (run_ending_weaken st0 l _ _ _ Hsub Hcur). lia. }
  split; cbn [current_longest longest_streak].
  - by rewrite last_snoc.
  - destruct (status st0 d) eqn:Hd.
    + destruct (Z.max_spec (longest_streak s) cur) as [[_ ->]|[_ ->]].
      * by exists d.
      * exists q. by eapply run_ending_weaken.
    + exists q. by eapply run_ending_weaken.
Qed.

Lemma pass_attains_longest_pass st0 l :
  pass_attains st0 l (longest_pass st0 l).
Proof.
  induction l as [|d l IH] using rev_ind; [apply pass_attains_nil|].
  rewrite longest_pass_snoc. apply pass_attains_snoc; [|..|done].
  - destruct l as [|x l _] using rev_ind; [done|].
    by rewrite longest_pass_prev, last_snoc.
  - intros x. apply longest_pass_status.
Qed.

(** X1: the longest streak returned is the length of the longest run of
    consecutive success days among the entries: some run of that length is
    there, and no run is longer.  This holds for every clock. *)
Theorem longest_streak_is_longest_run (today : clock) (es : list entry)
    (c l : Z) :
  calculate_streak today es = Return (c, l) →
  (∃ p, ∀ i, 0 ≤ i < l → success_day es (p - i))
  ∧ (∀ p m, (∀ i, 0 ≤ i < m → success_day es (p - i)) → m ≤ l).
Proof.
  intros Hr.
  apply calculate_streak_Return in Hr
    as [(-> & _ & ->)|(st0 & ds & first & rest & _ & E & _ & _ & ->)].
  - split; [exists 0; intros i Hi; lia|].
    intros p m Hrun. destruct (decide (m ≤ 0)) as [|Hm]; [done|].
    destruct (Hrun 0) as [Hex _]; [lia|]. by apply Exists_nil in Hex.
  - pose proof (pass_inv_longest_pass st0 _ (sorted_increasing ds)) as Hinv.
    destruct (pass_attains_longest_pass st0 (sorted ds)) as [_ [q Hq]].
    split.
    + exists q. by apply (run_ending_success_days _ _ _ _ _ E).
    + intros p m Hrun. destruct (decide (m ≤ 0)) as [|Hm].
      { pose proof (inv_low _ _ _ Hinv). lia. }
      apply (run_ending_success_days _ _ _ _ _ E) in Hrun.
      apply (inv_longest _ _ _ Hinv p); [|done].
      destruct (Hrun 0) as [Hin _]; [lia|].
      by replace (p - 0) with p in Hin by lia.
Qed.

Lemma longest_streak_is_longest_run_witness :
  (∃ p, ∀ i, 0 ≤ i < 3 → success_day two_runs (p - i))
  ∧ (∀ p m, (∀ i, 0 ≤ i < m → success_day two_runs (p - i)) → m ≤ 3).
Proof.
  apply (longest_streak_is_longest_run (λ _, ord 2025 1 6) two_runs 2 3).
  vm_compute. reflexivity.
Defined.

(** ** The result depends on the recorded days only *)

Lemma fold_entries_same_days es es' st ds st' ds' :
  (∀ d, Exists (entry_on d) es ↔ Exists (entry_on d) es') →
  (∀ d, Exists (failure_on d) es ↔ Exists (failure_on d) es') →
  fold_entries (∅, ∅) es = Return (st, ds) →
  fold_entries (∅, ∅) es' = Return (st', ds') →
  st = st' ∧ ds = ds'.
Proof.
  intros Hon Hfail (_ & Hds & Hst)%fold_entries_from_empty
    (_ & Hds' & Hst')%fold_entries_from_empty.
  split.
  - apply map_eq. intros d. rewrite Hst, Hst'. specialize (Hfail d).
    repeat case_decide; naive_solver.
  - apply set_eq. intros d. by rewrite Hds, Hds', Hon.
Qed.

Lemma calculate_streak_same_days today es es' :
  Forall well_formed es → Forall well_formed es' →
  (∀ d, Exists (entry_on d) es ↔ Exists (entry_on d) es') →
  (∀ d, Exists (failure_on d) es ↔ Exists (failure_on d) es') →
  calculate_streak today es = calculate_streak today es'.
Proof.
  intros Hwf Hwf' Hon Hfail.
  destruct es as [|e es], es' as [|e' es'].
  - reflexivity.
  - exfalso. apply Forall_cons in Hwf' as [[d Hd] _].
    apply (Exists_nil (entry_on d)), Hon. by left.
  - exfalso. apply Forall_cons in Hwf as [[d Hd] _].
    apply (Exists_nil (entry_on d)), Hon. by left.
  - destruct (fold_entries_well_formed _ (∅, ∅) Hwf) as [[st ds] E].
    destruct (fold_entries_well_formed _ (∅, ∅) Hwf') as [[st' ds'] E'].
    destruct (fold_entries_same_days _ _ _ _ _ _ Hon Hfail E E') as [<- <-].
    destruct (sorted ds) as [|first rest] eqn:Hs.
    { destruct (fold_entries_dates_nonempty _ _ _ _ E Hs). }
    rewrite (calculate_streak_cons today _ _ _ _ _ _ E Hs).
    rewrite (calculate_streak_cons today _ _ _ _ _ _ E' Hs).
    reflexivity.
Qed.

(** X2: the order of the entries does not matter: for well-formed entries
    and every clock, a permutation of the entries gives the same result. *)
Theorem permuted_entries_same_streaks (today : clock) (es es' : list entry) :
  Forall well_formed es → es ≡ₚ es' →
  calculate_streak today es = calculate_streak today es'.
Proof.
  intros Hwf Hperm. apply calculate_streak_same_days; [done| | |].
  - by rewrite <- Hperm.
  - intros d. by apply entry_on_Permutation.
  - intros d. by apply failure_on_Permutation.
Qed.

Lemma permuted_entries_same_streaks_witness :
  calculate_streak (λ _, ord 2025 1 6) two_runs
  = calculate_streak (λ _, ord 2025 1 6) (reverse two_runs).
Proof.
  apply permuted_entries_same_streaks.
  - apply (bool_decide_unpack _). vm_compute. exact I.
  - symmetry. apply reverse_Permutation.
Defined.

(** X3: an entry that repeats the date and the outcome of an entry already
    there changes nothing. *)
Theorem repeated_entry_changes_nothing (today : clock) (es : list entry)
    (e e' : entry) :
  Forall well_formed es → e ∈ es →
  entry_date e' = entry_date e →
  (success e' = 0 ↔ success e = 0) →
  calculate_streak today (e' :: es) = calculate_streak today es.
Proof.
  intros Hwf He Hdate Hsucc.
  assert (Hwfe : well_formed e).
  { rewrite Forall_forall in Hwf. by apply Hwf. }
  apply calculate_streak_same_days; [|done|..].
  - constructor; [|done]. destruct Hwfe as [d Hd]. exists d. congruence.
  - intros d. rewrite Exists_cons. split; [|auto].
    intros [Hon|?]; [|done]. apply Exists_exists. exists e. split; [done|].
    unfold entry_on in *. congruence.
  - intros d. rewrite Exists_cons. split; [|auto].
    intros [[Hon Hf]|?]; [|done]. apply Exists_exists. exists e.
    split; [done|]. split; [congruence|tauto].
Qed.

Lemma repeated_entry_changes_nothing_witness :
  calculate_streak (λ _, ord 2025 1 6)
    (Entry "2025-01-05 23:59:59" 7 :: two_runs)
  = calculate_streak (λ _, ord 2025 1 6) two_runs.
Proof.
  apply (repeated_entry_changes_nothing _ _ (Entry "2025-01-05" 1)).
  - apply (bool_decide_unpack _). vm_compute. exact I.
  - apply (bool_decide_unpack _). vm_compute. exact I.
  - vm_compute. reflexivity.
  - simpl. split; intros H; discriminate H.
Defined.

(** ** The current streak while the clock stands still *)

(** X4: every day counted in the current streak is a success day, and the
    days counted are the consecutive days ending today. *)
Theorem current_streak_counts_success_days (es : list entry) (today c l : Z) :
  compute_streaks es today = Return (c, l) →
  ∀ i, 0 ≤ i < c → success_day es (today - i).
Proof.
  intros Hr.
  apply calculate_streak_Return in Hr
    as [(_ & -> & _)|(st0 & ds & first & rest & _ & E & _ & -> & _)];
    [intros i Hi; lia|].
  cbv beta. apply (run_ending_success_days _ _ _ _ _ E).
  apply (frozen_scan_counts_a_run _ _ _ _ _ E).
Qed.

Lemma current_streak_counts_success_days_witness :
  success_day two_runs (ord 2025 1 6 - 1).
Proof.
  pose proof (current_streak_counts_success_days two_runs (ord 2025 1 6) 2 3)
    as Hdays.
  apply Hdays; [vm_compute; reflexivity|lia].
Defined.

Section scan_over_a_run.
Variables (now : Z) (st : gmap Z bool) (first : Z).
Hypothesis first_is_earliest : ∀ d, is_Some (st !! d) → first ≤ d.

(** The scan counts a run of [j] successes and stops on the unlogged day
    before it, or when its iterations are used up. *)
Lemma scan_frozen_counts_run fuel : ∀ reads day c j,
  day ≤ now → 0 ≤ j ≤ Z.of_nat fuel →
  (∀ i, 0 ≤ i < j → st !! (day - i) = Some true) →
  (j < Z.of_nat fuel → st !! (day - j) = None) →
  scan (λ _, now) st first fuel reads day c = c + j.
Proof.
  induction fuel as [|fuel IH]; intros reads day c j Hday Hj Hrun Hstop;
    cbn [scan]; [lia|].
  destruct (decide (j = 0)) as [->|Hpos].
  - rewrite Z.sub_0_r in Hstop. rewrite Hstop by lia.
    destruct (Z.ltb_spec day now); [lia|].
    destruct (Z.eqb_spec day now); lia.
  - pose proof (Hrun 0) as H0. rewrite Z.sub_0_r in H0. rewrite H0 by lia.
    destruct (Z.leb_spec day first) as [Hle|Hgt].
    + destruct (decide (j = 1)) as [->|Hj1]; [lia|].
      assert (first ≤ day - 1); [|lia].
      apply first_is_earliest. rewrite (Hrun 1) by lia. by eexists.
    + rewrite (IH _ _ _ (j - 1)); [lia|lia|lia| |].
      * intros i Hi. replace (day - 1 - i) with (day - (i + 1)) by lia.
        apply Hrun. lia.
      * intros Hlt. replace (day - 1 - (j - 1)) with (day - j) by lia.
        apply Hstop. lia.
Qed.

(** The scan counts a run of [j] successes, meets the recorded failure
    before it and ends with [0]. *)
Lemma scan_frozen_run_then_failure fuel : ∀ reads day c j,
  0 ≤ j < Z.of_nat fuel →
  (∀ i, 0 ≤ i < j → st !! (day - i) = Some true) →
  st !! (day - j) = Some false →
  scan (λ _, now) st first fuel reads day c = 0.
Proof.
  induction fuel as [|fuel IH]; intros reads day c j Hj Hrun Hfail;
    cbn [scan]; [lia|].
  destruct (decide (j = 0)) as [->|Hpos].
  - rewrite Z.sub_0_r in Hfail. by rewrite Hfail.
  - pose proof (Hrun 0) as H0. rewrite Z.sub_0_r in H0. rewrite H0 by lia.
    assert (first ≤ day - j)
      by (apply first_is_earliest; rewrite Hfail; by eexists).
    destruct (Z.leb_spec day first) as [Hle|Hgt]; [lia|].
    apply (IH _ _ _ (j - 1)); [lia| |].
    + intros i Hi. replace (day - 1 - i) with (day - (i + 1)) by lia.
      apply Hrun. lia.
    + by replace (day - 1 - (j - 1)) with (day - j) by lia.
Qed.

End scan_over_a_run.

Lemma scanned_first_is_earliest es st0 ds first rest :
  fold_entries (∅, ∅) es = Return (st0, ds) →
  sorted ds = first :: rest →
  ∀ d, is_Some (day_status (longest_pass st0 (sorted ds)) !! d) → first ≤ d.
Proof.
  intros E Hs d. rewrite (scanned_status _ _ _ _ E).
  case_decide as Hin; [|by intros [? ?]]. intros _.
  pose proof (sorted_increasing ds) as Hinc. rewrite Hs in Hinc.
  apply (increasing_head_min _ _ _ Hinc). rewrite <- Hs.
  by apply sorted_elem_of.
Qed.

Lemma scanned_success_day es st0 ds d :
  fold_entries (∅, ∅) es = Return (st0, ds) →
  success_day es d →
  day_status (longest_pass st0 (sorted ds)) !! d = Some true.
Proof.
  intros E [Hin Hst]%(success_day_status _ _ _ _ E).
  by rewrite (scanned_status _ _ _ _ E), decide_True, Hst.
Qed.

(** X5: when the [k] days ending today are success days, with
    [1 ≤ k ≤ 365], and the day before them has no entry (or [k] is 365),
    the current streak returned is [k]: an unlogged day ends the scan and
    keeps what was counted. *)
Theorem unlogged_day_keeps_current_streak (es : list entry) (today k : Z) :
  Forall well_formed es →
  1 ≤ k ≤ 365 →
  (∀ i, 0 ≤ i < k → success_day es (today - i)) →
  (k < 365 → ¬ Exists (entry_on (today - k)) es) →
  ∃ l, compute_streaks es today = Return (k, l).
Proof.
  intros Hwf Hk Hrun Hgap. unfold compute_streaks.
  destruct es as [|e es].
  { destruct (Hrun 0) as [Hex _]; [lia|]. by apply Exists_nil in Hex. }
  destruct (fold_entries_well_formed (e :: es) (∅, ∅) Hwf) as [[st0 ds] E].
  destruct (sorted ds) as [|first rest] eqn:Hs.
  { destruct (fold_entries_dates_nonempty _ _ _ _ E Hs). }
  rewrite (calculate_streak_cons _ _ _ _ _ _ _ E Hs). cbv beta.
  exists (longest_streak (longest_pass st0 (sorted ds))).
  rewrite (scan_frozen_counts_run today _ first
             (scanned_first_is_earliest _ _ _ _ _ E Hs) _ _ _ _ k).
  - by rewrite Z.add_0_l.
  - lia.
  - change (Z.of_nat LOOKBACK) with 365. lia.
  - intros i Hi. by apply (scanned_success_day _ _ _ _ E), Hrun.
  - change (Z.of_nat LOOKBACK) with 365. intros Hlt.
    rewrite (scanned_status _ _ _ _ E), decide_False; [done|].
    apply fold_entries_from_empty in E as (_ & Hds & _). rewrite Hds. auto.
Qed.

Lemma unlogged_day_keeps_current_streak_witness :
  ∃ l, compute_streaks two_runs (ord 2025 1 6) = Return (2, l).
Proof.
  apply unlogged_day_keeps_current_streak.
  - apply (bool_decide_unpack _). vm_compute. exact I.
  - lia.
  - intros i Hi. assert (i = 0 ∨ i = 1) as [-> | ->] by lia;
      (split; [apply (bool_decide_unpack _)|apply (bool_decide_unpack _)];
       vm_compute; exact I).
  - intros _. apply (bool_decide_unpack _). vm_compute. exact I.
Defined.

(** X6: when the [k] days ending today are success days, with
    [0 ≤ k < 365], and the day before them is recorded as a failure, the
    current streak returned is [0]. *)
Theorem failure_before_run_gives_zero (es : list entry) (today k : Z) :
  Forall well_formed es →
  0 ≤ k < 365 →
  (∀ i, 0 ≤ i < k → success_day es (today - i)) →
  Exists (failure_on (today - k)) es →
  ∃ l, compute_streaks es today = Return (0, l).
Proof.
  intros Hwf Hk Hrun Hfail. unfold compute_streaks.
  destruct es as [|e es]; [by apply Exists_nil in Hfail|].
  destruct (fold_entries_well_formed (e :: es) (∅, ∅) Hwf) as [[st0 ds] E].
  destruct (sorted ds) as [|first rest] eqn:Hs.
  { destruct (fold_entries_dates_nonempty _ _ _ _ E Hs). }
  rewrite (calculate_streak_cons _ _ _ _ _ _ _ E Hs). cbv beta.
  exists (longest_streak (longest_pass st0 (sorted ds))).
  rewrite (scan_frozen_run_then_failure today _ first
             (scanned_first_is_earliest _ _ _ _ _ E Hs) _ _ _ _ k).
  - reflexivity.
  - change (Z.of_nat LOOKBACK) with 365. lia.
  - intros i Hi. by apply (scanned_success_day _ _ _ _ E), Hrun.
  - rewrite (scanned_status _ _ _ _ E).
    pose proof (fold_entries_from_empty _ _ _ E) as (_ & Hds & Hst).
    rewrite decide_True.
    + unfold status. by rewrite Hst, decide_True.
    + apply Hds. eapply Exists_impl; [done|]. by intros x [? _].
Qed.

Lemma failure_before_run_gives_zero_witness :
  ∃ l, compute_streaks scenario (ord 2025 1 4) = Return (0, l).
Proof.
  apply (failure_before_run_gives_zero _ _ 1).
  - apply (bool_decide_unpack _). vm_compute. exact I.
  - lia.
  - intros i Hi. assert (i = 0) as -> by lia.
    split; apply (bool_decide_unpack _); vm_compute; exact I.
  - apply (bool_decide_unpack _). vm_compute. exact I.
Defined.

(** * Date strings *)

(** ** Words of [str.split()] *)

Lemma split_from_no_space w : no_space w → ∀ cur,
  PyStr.split_from cur w = match rev cur ++ w with [] => [] | t => [t] end.
Proof.
  induction 1 as [|c w Hc Hw IH]; intros cur; cbn [PyStr.split_from].
  - rewrite app_nil_r. destruct cur as [|c cur]; [done|].
    cbn [rev]. by destruct (rev cur).
  - rewrite Hc, IH. cbn [rev]. by rewrite <- app_assoc.
Qed.

Lemma split_from_first_word s : ∀ cur,
  no_space cur →
  match PyStr.split_from cur s with
  | [] => True
  | t :: _ => t ≠ [] ∧ no_space t
  end.
Proof.
  unfold no_space.
  induction s as [|c s IH]; intros cur Hcur; cbn [PyStr.split_from].
  - destruct cur as [|c cur]; [done|]. split.
    + cbn [rev]. by destruct (rev cur).
    + apply Forall_forall. intros x Hx. apply list_elem_of_In, in_rev in Hx.
      rewrite Forall_forall in Hcur. by apply Hcur, list_elem_of_In.
  - destruct (PyStr.is_space c) eqn:Hc.
    + destruct cur as [|c' cur]; [by apply (IH [])|]. split.
      * cbn [rev]. by destruct (rev cur).
      * apply Forall_forall. intros x Hx. apply list_elem_of_In, in_rev in Hx.
        rewrite Forall_forall in Hcur. by apply Hcur, list_elem_of_In.
    + apply IH. by constructor.
Qed.

Lemma split_from_word_then_space w : no_space w → ∀ cur c s,
  PyStr.is_space c = true → rev cur ++ w ≠ [] →
  head (PyStr.split_from cur (w ++ c :: s)) = Some (rev cur ++ w).
Proof.
  induction 1 as [|a w Ha Hw IH]; intros cur c s Hc Hne; cbn [app PyStr.split_from].
  - rewrite Hc. rewrite app_nil_r in *. destruct cur as [|c' cur]; [done|done].
  - rewrite Ha, IH; [|done|].
    + cbn [rev]. by rewrite <- app_assoc.
    + cbn [rev]. rewrite <- app_assoc. by destruct (rev cur).
Qed.

Lemma list_ascii_of_string_app s1 s2 :
  list_ascii_of_string (s1 +:+ s2)
  = list_ascii_of_string s1 ++ list_ascii_of_string s2.
Proof. induction s1 as [|c s1 IH]; [done|]. simpl. by f_equal. Qed.

(** X7: what follows the first whitespace of a date string is ignored: a
    time of day after the date does not change the day read. *)
Theorem time_suffix_is_ignored (day rest : string) (c : ascii) (n n' : Z) :
  day ≠ "" → no_space (list_ascii_of_string day) →
  PyStr.is_space c = true →
  entry_date (Entry (day +:+ String c rest) n) = entry_date (Entry day n').
Proof.
  intros Hne Hword Hc. unfold entry_date, PyStr.split. cbn [date].
  assert (Hw : list_ascii_of_string day ≠ []) by by destruct day.
  rewrite list_ascii_of_string_app. cbn [list_ascii_of_string].
  pose proof (split_from_word_then_space _ Hword [] c
                (list_ascii_of_string rest) Hc Hw) as Hhead.
  rewrite (split_from_no_space _ Hword []). cbn [rev app] in *.
  destruct (PyStr.split_from _ _) as [|tok toks]; [done|].
  injection Hhead as ->. by destruct (list_ascii_of_string day).
Qed.

Lemma time_suffix_is_ignored_witness :
  entry_date (Entry ("2025-01-03" +:+ String " " "21:40:00") 1)
  = entry_date (Entry "2025-01-03" 0).
Proof.
  apply time_suffix_is_ignored; [done| |done].
  apply (bool_decide_unpack _). vm_compute. exact I.
Defined.

(** ** Dates written by [strftime] are read back by [strptime] *)

Lemma code_digit_char k :
  0 ≤ k ≤ 9 → PyStr.code (ascii_of_nat (Z.to_nat (48 + k))) = 48 + k.
Proof.
  intros Hk. unfold PyStr.code. rewrite nat_ascii_embedding; lia.
Qed.

Lemma digit_digit_char k :
  0 ≤ k ≤ 9 → PyStr.digit (ascii_of_nat (Z.to_nat (48 + k))) = Some k.
Proof.
  intros Hk. unfold PyStr.digit. rewrite code_digit_char by done.
  destruct (Z.leb_spec 48 (48 + k)); [|lia].
  destruct (Z.leb_spec (48 + k) 57); [|lia]. cbn. f_equal. lia.
Qed.

Lemma is_space_digit_char k :
  0 ≤ k ≤ 9 → PyStr.is_space (ascii_of_nat (Z.to_nat (48 + k))) = false.
Proof.
  intros Hk. unfold PyStr.is_space. rewrite code_digit_char by done.
  repeat match goal with
         | |- context [?a <=? ?b] => destruct (Z.leb_spec a b); try lia
         | |- context [?a =? ?b] => destruct (Z.eqb_spec a b); try lia
         end; done.
Qed.

Lemma two_digits_chars n :
  list_ascii_of_string (two_digits n)
  = [ascii_of_nat (Z.to_nat (48 + n / 10));
     ascii_of_nat (Z.to_nat (48 + n mod 10))].
Proof. reflexivity. Qed.

Lemma re_day_two_digits d :
  1 ≤ d ≤ 31 →
  PyStr.re_day (list_ascii_of_string (two_digits d)) = Some (d, []).
Proof.
  intros Hd.
  assert (Hin : d ∈ seqZ 1 31) by (apply elem_of_seqZ; lia).
  clear Hd. revert d Hin. apply Forall_forall.
  apply (bool_decide_unpack _). vm_compute. exact I.
Qed.

Lemma re_month_two_digits {A} m rest (k : Z → list ascii → option A) v :
  1 ≤ m ≤ 12 → k m rest = Some v →
  PyStr.re_month (list_ascii_of_string (two_digits m) ++ rest) k = Some v.
Proof.
  intros Hm.
  assert (Hin : m ∈ [1; 2; 3; 4; 5; 6; 7; 8; 9; 10; 11; 12])
    by (rewrite !elem_of_cons; lia).
  clear Hm.
  repeat match goal with
         | H : _ ∈ _ :: _ |- _ => apply elem_of_cons in H as [->|H]
         end;
    [..|by apply elem_of_nil in Hin];
    intros Hk; cbv; cbv in Hk; by rewrite Hk.
Qed.

Lemma re_ymd_strftime y m d :
  1000 ≤ y ≤ 9999 → 1 ≤ m ≤ 12 → 1 ≤ d ≤ 31 →
  PyStr.re_ymd (list_ascii_of_string (strftime y m d)) = Some (y, m, d, []).
Proof.
  intros Hy Hm Hd. unfold strftime.
  assert (Hdigits :
    0 ≤ y / 100 / 10 ≤ 9 ∧ 0 ≤ (y / 100) mod 10 ≤ 9
    ∧ 0 ≤ y mod 100 / 10 ≤ 9 ∧ 0 ≤ (y mod 100) mod 10 ≤ 9
    ∧ 1000 * (y / 100 / 10) + 100 * ((y / 100) mod 10)
      + 10 * (y mod 100 / 10) + (y mod 100) mod 10 = y)
    by (Z.div_mod_to_equations; lia).
  destruct Hdigits as (H1 & H2 & H3 & H4 & Hyear).
  rewrite !list_ascii_of_string_app, (two_digits_chars (y / 100)),
    (two_digits_chars (y mod 100)).
  cbn [app list_ascii_of_string]. unfold PyStr.re_ymd.
  rewrite !digit_digit_char by done.
  change (PyStr.hyphen "-") with true. cbv iota.
  apply re_month_two_digits; [done|].
  change (PyStr.hyphen "-") with true. cbv iota.
  rewrite re_day_two_digits by done. by rewrite Hyear.
Qed.

Lemma strftime_no_space y m d :
  1000 ≤ y ≤ 9999 → 1 ≤ m ≤ 12 → 1 ≤ d ≤ 31 →
  no_space (list_ascii_of_string (strftime y m d)).
Proof.
  intros Hy Hm Hd. unfold strftime, no_space.
  rewrite !list_ascii_of_string_app, !two_digits_chars.
  cbn [app list_ascii_of_string].
  repeat apply Forall_cons_2; try apply Forall_nil_2; try reflexivity;
    apply is_space_digit_char; Z.div_mod_to_equations; lia.
Qed.

Lemma days_in_month_le_31 y m : PyDate.days_in_month y m ≤ 31.
Proof. unfold PyDate.days_in_month. repeat case_match; lia. Qed.

Lemma entry_date_strftime y m d n :
  1000 ≤ y ≤ 9999 → 1 ≤ m ≤ 12 → 1 ≤ d ≤ PyDate.days_in_month y m →
  entry_date (Entry (strftime y m d) n) = Return (ord y m d).
Proof.
  intros Hy Hm Hd. pose proof (days_in_month_le_31 y m) as H31.
  assert (Hd31 : 1 ≤ d ≤ 31) by lia.
  unfold entry_date, PyStr.split. cbn [date].
  rewrite (split_from_no_space _ (strftime_no_space y m d Hy Hm Hd31) []).
  cbn [rev app].
  pose proof (re_ymd_strftime y m d Hy Hm Hd31) as Hre.
  destruct (list_ascii_of_string (strftime y m d)) as [|c cs] eqn:Hs;
    [discriminate Hre|].
  unfold PyStr.strptime. rewrite Hre. unfold PyDate.make_date, ord.
  unfold PyDate.MINYEAR, PyDate.MAXYEAR.
  repeat match goal with
         | |- context [?a <=? ?b] => destruct (Z.leb_spec a b); try lia
         end.
  reflexivity.
Qed.

(** X8: a date written by [strftime("%Y-%m-%d")], the way [add_entry] and
    [add_habit] write today's date, is read back by [calculate_streak] as
    the same day: for every day of the calendar from year 1000 to year
    9999 the date string of an entry yields that day. *)
Theorem strftime_is_read_back (y m d n : Z) :
  1000 ≤ y ≤ 9999 → 1 ≤ m ≤ 12 → 1 ≤ d ≤ PyDate.days_in_month y m →
  entry_date (Entry (strftime y m d) n) = Return (ord y m d).
Proof. apply entry_date_strftime. Qed.

Lemma strftime_is_read_back_witness :
  entry_date (Entry (strftime 2024 2 29) 1) = Return (ord 2024 2 29).
Proof. apply strftime_is_read_back; [lia|lia|vm_compute; split; discriminate]. Defined.

(** * The dashboard *)

Lemma clean_row_Return e e' :
  clean_row e = Return e' →
  ¬ blank_date e ∧ entry_date (to_entry e') = entry_date (to_entry e)
  ∧ e_success e' = e_success e ∧ e_mood e' = e_mood e.
Proof.
  unfold clean_row, blank_date, entry_date, PyStr.split. cbn [to_entry date].
  pose proof (split_from_first_word (list_ascii_of_string (e_date e)) []) as Hw.
  destruct (PyStr.split_from [] (list_ascii_of_string (e_date e)))
    as [|tok toks]; [done|].
  destruct Hw as [Hne Hword]; [constructor|].
  intros [= <-]. cbn [e_date e_success e_mood]. split_and!; try done.
  rewrite list_ascii_of_string_of_list_ascii.
  rewrite (split_from_no_space _ Hword []). cbn [rev app].
  by destruct tok.
Qed.

Lemma clean_row_blank e : blank_date e → clean_row e = Raise IndexError.
Proof. unfold blank_date, clean_row. by intros ->. Qed.

Lemma clean_row_not_blank e : ¬ blank_date e → ∃ e', clean_row e = Return e'.
Proof.
  unfold blank_date, clean_row. destruct (PyStr.split (e_date e)); [done|eauto].
Qed.

Lemma clean_rows_Return es : ∀ es',
  clean_rows es = Return es' →
  Forall (λ e, ¬ blank_date e) es
  ∧ Forall2 (λ e e', entry_date (to_entry e') = entry_date (to_entry e)
                     ∧ e_success e' = e_success e ∧ e_mood e' = e_mood e)
            es es'.
Proof.
  induction es as [|e es IH]; intros es'; cbn [clean_rows].
  - intros [= <-]. split; constructor.
  - destruct (clean_row e) as [e1|x] eqn:He; cbn [mbind outcome_bind]; [|done].
    destruct (clean_rows es) as [es1|x] eqn:Hes; cbn [mbind outcome_bind];
      [|done].
    intros [= <-]. apply clean_row_Return in He as [Hnb He].
    destruct (IH _ eq_refl) as [Hall Hrel].
    split; by constructor.
Qed.

Lemma clean_rows_blank es :
  Exists blank_date es → clean_rows es = Raise IndexError.
Proof.
  induction 1 as [e es He|e es Hex IH]; cbn [clean_rows].
  - by rewrite clean_row_blank.
  - destruct (clean_row e) as [e1|x] eqn:He; cbn [mbind outcome_bind].
    + by rewrite IH.
    + unfold clean_row in He. by destruct (PyStr.split (e_date e)); simplify_eq.
Qed.

Lemma clean_rows_not_blank es :
  Forall (λ e, ¬ blank_date e) es → ∃ es', clean_rows es = Return es'.
Proof.
  induction 1 as [|e es He Hes [es' IH]]; cbn [clean_rows]; [by eexists|].
  destruct (clean_row_not_blank e He) as [e' ->]. rewrite IH.
  cbn [mbind outcome_bind]. by eexists.
Qed.

Lemma calculate_streak_Return_well_formed today es r :
  calculate_streak today es = Return r → Forall well_formed es.
Proof.
  destruct r as [c l]. intros Hr.
  apply calculate_streak_Return in Hr
    as [(-> & _)|(st0 & ds & first & rest & _ & E & _)]; [constructor|].
  by apply fold_entries_from_empty in E as [Hwf _].
Qed.

Lemma cleaned_rows_same_days es es' :
  Forall2 (λ e e', entry_date (to_entry e') = entry_date (to_entry e)
                   ∧ e_success e' = e_success e ∧ e_mood e' = e_mood e)
          es es' →
  (Forall well_formed (to_entry <$> es')
   ↔ Forall well_formed (to_entry <$> es))
  ∧ (∀ d, Exists (entry_on d) (to_entry <$> es')
          ↔ Exists (entry_on d) (to_entry <$> es))
  ∧ (∀ d, Exists (failure_on d) (to_entry <$> es')
          ↔ Exists (failure_on d) (to_entry <$> es)).
Proof.
  induction 1 as [|e e' es es' (Hd & Hs & _) Hrel (IHwf & IHon & IHfail)];
    [done|].
  cbn [fmap list_fmap]. split_and!.
  - rewrite !Forall_cons, IHwf. unfold well_formed. by rewrite Hd.
  - intros d. rewrite !Exists_cons, IHon. unfold entry_on. by rewrite Hd.
  - intros d. rewrite !Exists_cons, IHfail. unfold failure_on.
    cbn [to_entry success] in *. by rewrite Hd, Hs.
Qed.

(** X9: the cleaning of the date strings by the dashboard does not change
    the streaks: when the loop body returns for the rows of a habit, the
    streaks it stores are those [calculate_streak] gives for the rows as
    they are stored. *)
Theorem dashboard_streaks_of_stored_rows (today : clock)
    (rows : list entry_row) (v : habit_view) :
  dashboard_habit today rows = Return v →
  calculate_streak today (to_entry <$> rows)
  = Return (hv_current_streak v, hv_longest_streak v).
Proof.
  unfold dashboard_habit.
  destruct (clean_rows rows) as [es'|x] eqn:Hclean; cbn [mbind outcome_bind];
    [|done].
  destruct (calculate_streak today (to_entry <$> es')) as [[c l]|x] eqn:Hcalc;
    cbn [mbind outcome_bind]; [|done].
  intros [= <-]. cbn [hv_current_streak hv_longest_streak].
  apply clean_rows_Return in Hclean as [_ Hrel].
  apply cleaned_rows_same_days in Hrel as (Hwf & Hon & Hfail).
  pose proof (calculate_streak_Return_well_formed _ _ _ Hcalc) as Hwf'.
  rewrite <- Hcalc. symmetry.
  apply calculate_streak_same_days; [done|by apply Hwf|done..].
Qed.

Lemma dashboard_streaks_of_stored_rows_witness :
  calculate_streak (λ _, ord 2025 1 4)
    (to_entry <$> [EntryRow 7 1 "2025-01-04 09:30:00" 1 "calm" "ok";
                   EntryRow 5 1 "2025-01-03" 1 "happy" "fine"])
  = Return (2, 2).
Proof.
  apply (dashboard_streaks_of_stored_rows _ _
           (HabitView [EntryRow 7 1 "2025-01-04" 1 "calm" "ok";
                       EntryRow 5 1 "2025-01-03" 1 "happy" "fine"]
                      2 2 (Some (EntryRow 7 1 "2025-01-04" 1 "calm" "ok"))
                      [("happy", 1); ("sad", 0); ("neutral", 0);
                       ("anxious", 0); ("calm", 1)])).
  vm_compute. reflexivity.
Defined.

(** X10: what the loop body of the dashboard does with malformed dates: a
    row with a blank date makes it raise [IndexError] in its own cleaning
    loop, wherever the row stands; when no date is blank, a row whose date
    is not a calendar day makes it raise [ValueError]; and when every row
    is well formed it returns. *)
Theorem dashboard_outcome (today : clock) (rows : list entry_row) :
  (Exists blank_date rows → dashboard_habit today rows = Raise IndexError)
  ∧ (Forall (λ e, ¬ blank_date e) rows →
     Exists (λ e, ¬ well_formed (to_entry e)) rows →
     dashboard_habit today rows = Raise ValueError)
  ∧ (Forall (λ e, well_formed (to_entry e)) rows →
     ∃ v, dashboard_habit today rows = Return v).
Proof.
  unfold dashboard_habit. split_and!.
  - intros Hblank. by rewrite clean_rows_blank.
  - intros Hnb Hbad.
    destruct (clean_rows_not_blank _ Hnb) as [es' Hclean]. rewrite Hclean.
    cbn [mbind outcome_bind].
    apply clean_rows_Return in Hclean as [_ Hrel].
    pose proof (cleaned_rows_same_days _ _ Hrel) as (Hwf & _ & _).
    destruct (calculate_streak today (to_entry <$> es')) as [r|x] eqn:Hcalc.
    + exfalso. apply calculate_streak_Return_well_formed, Hwf in Hcalc.
      apply Exists_exists in Hbad as (e & He & Hnwf). apply Hnwf.
      rewrite Forall_fmap, Forall_forall in Hcalc. by apply Hcalc.
    + cbn [mbind outcome_bind]. f_equal.
      apply calculate_streak_Raise in Hcalc as (good & e & rest & Heq & _ & He).
      destruct x; [done| |].
      * exfalso. apply entry_date_IndexError in He.
        assert (e ∈ to_entry <$> es') as Hin by (rewrite Heq; set_solver).
        apply list_elem_of_fmap in Hin as (r' & -> & Hr').
        apply list_elem_of_lookup in Hr' as [i Hi].
        destruct (Forall2_lookup_r _ _ _ _ _ Hrel Hi) as (r & Hr & Hd & _).
        rewrite Forall_forall in Hnb.
        apply (Hnb r); [by eapply list_elem_of_lookup_2|].
        unfold blank_date. apply (entry_date_IndexError (to_entry r)).
        rewrite <- Hd. by apply entry_date_IndexError.
      * by apply entry_date_raises in He as [?|?].
  - intros Hwf.
    assert (Hnb : Forall (λ e, ¬ blank_date e) rows).
    { eapply Forall_impl; [exact Hwf|]. intros e [d Hd] Hblank.
      apply (entry_date_IndexError (to_entry e)) in Hblank. congruence. }
    destruct (clean_rows_not_blank _ Hnb) as [es' Hclean]. rewrite Hclean.
    cbn [mbind outcome_bind].
    apply clean_rows_Return in Hclean as [_ Hrel].
    pose proof (cleaned_rows_same_days _ _ Hrel) as (Hwf' & _ & _).
    destruct (calculate_streak_well_formed today (to_entry <$> es'))
      as (c & l & ->).
    { apply Hwf'. by apply Forall_fmap. }
    cbn [mbind outcome_bind]. by eexists.
Qed.

Lemma dashboard_outcome_witness :
  dashboard_habit (λ _, ord 2025 1 4)
    [EntryRow 2 1 "04/01/2025" 1 "calm" "a"; EntryRow 1 1 "  " 1 "sad" "b"]
  = Raise IndexError
  ∧ dashboard_habit (λ _, ord 2025 1 4)
      [EntryRow 2 1 "04/01/2025" 1 "calm" "a";
       EntryRow 1 1 "2025-01-03" 1 "sad" "b"]
    = Raise ValueError
  ∧ ∃ v, dashboard_habit (λ _, ord 2025 1 4)
           [EntryRow 2 1 "2025-01-04" 1 "calm" "a";
            EntryRow 1 1 "2025-01-03" 1 "sad" "b"] = Return v.
Proof.
  split_and!.
  - apply (proj1 (dashboard_outcome _ _)).
    apply (bool_decide_unpack _). vm_compute. exact I.
  - apply (proj1 (proj2 (dashboard_outcome _ _))).
    + apply (bool_decide_unpack _). vm_compute. exact I.
    + apply Exists_cons_hd. intros [d Hd]. discriminate Hd.
  - apply (proj2 (proj2 (dashboard_outcome _ _))).
    apply (bool_decide_unpack _). vm_compute. exact I.
Defined.

(** ** Mood counts *)

Lemma total_count_mood_counts_cons e es :
  total_count (mood_counts (e :: es))
  = (if bool_decide (e_mood e ∈ MOODS) then 1 else 0)
    + total_count (mood_counts es).
Proof.
  unfold mood_counts, total_count, MOODS. cbn [fmap list_fmap foldr snd].
  rewrite !filter_cons.
  assert (Hin : e_mood e ∈ ["happy"; "sad"; "neutral"; "anxious"; "calm"]
                ↔ e_mood e = "happy" ∨ e_mood e = "sad" ∨ e_mood e = "neutral"
                  ∨ e_mood e = "anxious" ∨ e_mood e = "calm")
    by (rewrite !elem_of_cons, elem_of_nil; tauto).
  case_bool_decide as Hm; rewrite Hin in Hm.
  - destruct Hm as [Hm|[Hm|[Hm|[Hm|Hm]]]]; rewrite Hm;
      repeat (case_decide; [try discriminate|try done]);
      cbn [length]; lia.
  - repeat (case_decide; [exfalso; tauto|]). lia.
Qed.

(** X11: the mood counts of a habit add up to the number of its rows whose
    mood is one of the five moods listed; a row with any other mood is
    counted nowhere, so the counts never add up to more than the number of
    rows. *)
Theorem mood_counts_total (entries : list entry_row) :
  total_count (mood_counts entries)
  = Z.of_nat (length (filter (λ e, e_mood e ∈ MOODS) entries))
  ∧ total_count (mood_counts entries) ≤ Z.of_nat (length entries).
Proof.
  induction entries as [|e es [IH1 IH2]]; [done|].
  rewrite total_count_mood_counts_cons, filter_cons.
  case_bool_decide; [rewrite decide_True by done|rewrite decide_False by done];
    cbn [length]; lia.
Qed.

(** * The routes that write entries *)

(** ** Lists of rows *)

Lemma filter_filter_absorb {A} (P Q : A → Prop)
    `{∀ x, Decision (P x), ∀ x, Decision (Q x)} (l : list A) :
  (∀ x, x ∈ l → P x → Q x) → filter P (filter Q l) = filter P l.
Proof.
  induction l as [|x l IH]; intros Himp; [done|].
  rewrite (filter_cons Q). destruct (decide (Q x)) as [Hq|Hq].
  - rewrite !filter_cons, IH; [done|]. intros y Hy. apply Himp. by right.
  - rewrite filter_cons, decide_False, IH; [done| |].
    + intros y Hy. apply Himp. by right.
    + intros Hp. apply Hq, Himp; [by left|done].
Qed.

Lemma filter_fmap_fixed {A} (P : A → Prop) `{∀ x, Decision (P x)}
    (f : A → A) (l : list A) :
  (∀ x, x ∈ l → P (f x) ↔ P x) → (∀ x, x ∈ l → P x → f x = x) →
  filter P (f <$> l) = filter P l.
Proof.
  induction l as [|x l IH]; intros Hiff Hfix; [done|].
  cbn [fmap list_fmap]. rewrite !filter_cons.
  assert (Hx : x ∈ x :: l) by by left.
  rewrite IH.
  - destruct (decide (P x)) as [Hp|Hp].
    + rewrite decide_True by by apply Hiff. by rewrite Hfix.
    + rewrite decide_False; [done|]. by rewrite Hiff.
  - intros y Hy. apply Hiff. by right.
  - intros y Hy. apply Hfix. by right.
Qed.

Lemma filter_snoc_not {A} (P : A → Prop) `{∀ x, Decision (P x)}
    (l : list A) (x : A) :
  ¬ P x → filter P (l ++ [x]) = filter P l.
Proof.
  intros Hx. rewrite filter_app, filter_cons, decide_False by done.
  by rewrite filter_nil, app_nil_r.
Qed.

Lemma NoDup_fmap_same {A B} `{EqDecision B} (f : A → B) (l : list A) x y :
  NoDup (f <$> l) → x ∈ l → y ∈ l → f x = f y → x = y.
Proof.
  induction l as [|z l IH]; intros Hnd Hx Hy Hf; [by apply elem_of_nil in Hx|].
  cbn [fmap list_fmap] in Hnd. apply NoDup_cons in Hnd as [Hz Hnd].
  apply elem_of_cons in Hx as [->|Hx], Hy as [->|Hy]; [done|..].
  - exfalso. apply Hz. rewrite Hf. by apply list_elem_of_fmap_2.
  - exfalso. apply Hz. rewrite <- Hf. by apply list_elem_of_fmap_2.
  - by apply IH.
Qed.

(** ** Who owns what *)

Lemma select_habit_owns db habit_id user_id h hs :
  select_habit db habit_id user_id = h :: hs →
  h ∈ habits db ∧ h_id h = habit_id ∧ h_user_id h = user_id.
Proof.
  unfold select_habit. intros Hsel.
  assert (h ∈ filter (λ h, h_id h = habit_id ∧ h_user_id h = user_id)
                     (habits db)) as Hin by (rewrite Hsel; by left).
  apply list_elem_of_filter in Hin. tauto.
Qed.

Lemma one_owner db h user_id :
  NoDup (h_id <$> habits db) → h ∈ habits db →
  owns db user_id (h_id h) → user_id = h_user_id h.
Proof.
  intros Hnd Hh (h' & Hh' & Hid & Huser)%Exists_exists.
  by rewrite <- (NoDup_fmap_same h_id _ _ _ Hnd Hh' Hh Hid).
Qed.

Lemma not_owned_by_other db habit_id user_id user_id' h hs :
  NoDup (h_id <$> habits db) →
  select_habit db habit_id user_id = h :: hs →
  user_id' ≠ user_id → ¬ owns db user_id' habit_id.
Proof.
  intros Hnd (Hh & <- & <-)%select_habit_owns Hne Hown.
  by apply Hne, (one_owner db h).
Qed.

Lemma select_entry_of_user_elem db entry_id user_id e h :
  (e, h) ∈ select_entry_of_user db entry_id user_id ↔
  e ∈ entries db ∧ h ∈ habits db
  ∧ e_habit_id e = h_id h ∧ e_id e = entry_id ∧ h_user_id h = user_id.
Proof.
  unfold select_entry_of_user. rewrite list_elem_of_bind. split.
  - intros (e' & (h' & Hin & Hh')%list_elem_of_bind & He').
    case_bool_decide; [|by apply elem_of_nil in Hin].
    apply list_elem_of_singleton in Hin. naive_solver.
  - intros (He & Hh & Hcond). exists e. split; [|done].
    apply list_elem_of_bind. exists h. split; [|done].
    rewrite bool_decide_eq_true_2 by done. by left.
Qed.

Ltac returned H :=
  cbn [mbind outcome_bind] in H; unfold mret, outcome_ret in H; simplify_eq.
Ltac unchanged H := returned H; done.

(** ** One user cannot touch the rows of another *)

(** X12: a request to [add_entry], [edit_entry], [delete_entry] or
    [delete_habit] changes nothing of another user: when habit and entry
    identifiers are unique, the habits of every user other than the one
    logged in, and the entries of these habits, are the same rows in the
    same order afterwards, whatever the request names. *)
Theorem other_users_rows_untouched
    (int_of_field : string → outcome Z) (new_entry_id : list entry_row → Z)
    (today : datetime_clock) (db db' : database) (session_user_id : option Z)
    (req : request) (resp : response) (user_id : Z) :
  NoDup (h_id <$> habits db) →
  NoDup (e_id <$> entries db) →
  handle int_of_field new_entry_id today db session_user_id req
    = Return (resp, db') →
  logged_in session_user_id ≠ Some user_id →
  filter (λ h, h_user_id h = user_id) (habits db')
    = filter (λ h, h_user_id h = user_id) (habits db)
  ∧ filter (λ e, owns db user_id (e_habit_id e)) (entries db')
    = filter (λ e, owns db user_id (e_habit_id e)) (entries db).
Proof.
  intros Hhabits Hentries Hrun Hother.
  destruct req as [habit_id m form|entry_id m form|entry_id|habit_id];
    cbn [handle] in Hrun.
  - unfold add_entry in Hrun.
    destruct (logged_in session_user_id) as [u|]; [|unchanged Hrun].
    destruct (select_habit db habit_id u) as [|h hs] eqn:Hsel;
      [unchanged Hrun|].
    destruct m; [unchanged Hrun|].
    destruct (_ || _); [unchanged Hrun|].
    destruct (filter _ (entries db)); [|unchanged Hrun].
    destruct (int_of_field _) as [n|]; [|done].
    returned Hrun.
    split; [done|]. cbn [entries]. apply filter_snoc_not. cbn [e_habit_id].
    eapply not_owned_by_other; [done..|congruence].
  - unfold edit_entry in Hrun.
    destruct (logged_in session_user_id) as [u|]; [|unchanged Hrun].
    destruct (select_entry_of_user db entry_id u) as [|[e0 h0] rows] eqn:Hsel;
      [unchanged Hrun|].
    destruct (clean_row e0) as [e|]; [|done].
    cbn [mbind outcome_bind] in Hrun.
    destruct m; [unchanged Hrun|].
    destruct (_ || _); [unchanged Hrun|].
    destruct (int_of_field _) as [n|]; [|done].
    returned Hrun.
    split; [done|]. cbn [entries].
    assert ((e0, h0) ∈ select_entry_of_user db entry_id u) as Hin
      by (rewrite Hsel; by left).
    apply select_entry_of_user_elem in Hin as (He0 & Hh0 & Hjoin & Hid & Hu).
    apply filter_fmap_fixed.
    + intros x _. unfold update_entry. by case_bool_decide.
    + intros x Hx Hown. unfold update_entry. case_bool_decide; [|done].
      exfalso.
      assert (x = e0) as ->
        by (eapply (NoDup_fmap_same e_id); [done..|congruence]).
      rewrite Hjoin in Hown. apply one_owner in Hown; [|done..]. congruence.
  - unfold delete_entry in Hrun.
    destruct (logged_in session_user_id) as [u|]; [|unchanged Hrun].
    destruct (filter _ (entries db)) as [|e0 rows] eqn:Hsel;
      [unchanged Hrun|].
    destruct (select_habit db (e_habit_id e0) u) as [|h hs] eqn:Hhabit;
      [unchanged Hrun|].
    returned Hrun.
    split; [done|]. cbn [entries].
    assert (e0 ∈ filter (λ e, e_id e = entry_id) (entries db)) as Hin
      by (rewrite Hsel; by left).
    apply list_elem_of_filter in Hin as [Hid He0].
    apply filter_filter_absorb. intros x Hx Hown Hxid.
    assert (x = e0) as ->
      by (eapply (NoDup_fmap_same e_id); [done..|congruence]).
    eapply not_owned_by_other in Hown; [done..|congruence].
  - unfold delete_habit in Hrun.
    destruct (logged_in session_user_id) as [u|]; [|unchanged Hrun].
    destruct (select_habit db habit_id u) as [|h hs] eqn:Hsel;
      [unchanged Hrun|].
    returned Hrun.
    cbn [entries habits]. split.
    + apply filter_filter_absorb. intros x Hx Hu Hxid.
      apply select_habit_owns in Hsel as (Hh & Hhid & Hhu).
      assert (x = h) as ->
        by (eapply (NoDup_fmap_same h_id); [done..|congruence]).
      congruence.
    + apply filter_filter_absorb. intros x Hx Hown Hxid.
      rewrite Hxid in Hown.
      eapply not_owned_by_other in Hown; [done..|congruence].
Qed.

Lemma other_users_rows_untouched_witness :
  filter (λ h, h_user_id h = 20) (habits example_db)
    = filter (λ h, h_user_id h = 20) (habits example_db)
  ∧ filter (λ e, owns example_db 20 (e_habit_id e))
           [EntryRow 2 2 "2025-01-03" 0 "sad" "skipped";
            EntryRow 3 1 "2025-01-04" 1 "calm" "fine"]
    = filter (λ e, owns example_db 20 (e_habit_id e)) (entries example_db).
Proof.
  apply (other_users_rows_untouched int_of_digits next_entry_id
           (λ _, (2025, 1, 5)) example_db
           (Database (habits example_db)
                     [EntryRow 2 2 "2025-01-03" 0 "sad" "skipped";
                      EntryRow 3 1 "2025-01-04" 1 "calm" "fine"])
           (Some 10) (DeleteEntry 1) (RedirectHabitHistory 1)).
  - apply (bool_decide_unpack _). vm_compute. exact I.
  - apply (bool_decide_unpack _). vm_compute. exact I.
  - vm_compute. reflexivity.
  - vm_compute. discriminate.
Defined.

(** ** The database stays consistent *)

Lemma NoDup_fmap_filter {A B} (f : A → B) (P : A → Prop)
    `{∀ x, Decision (P x)} (l : list A) :
  NoDup (f <$> l) → NoDup (f <$> filter P l).
Proof.
  induction l as [|x l IH]; [done|]. cbn [fmap list_fmap].
  intros [Hx Hl]%NoDup_cons. rewrite filter_cons.
  destruct (decide (P x)); [|by apply IH].
  cbn [fmap list_fmap]. apply NoDup_cons. split; [|by apply IH].
  intros (y & Hfy & [_ Hy]%list_elem_of_filter)%list_elem_of_fmap.
  apply Hx. rewrite Hfy. by apply list_elem_of_fmap_2.
Qed.

Lemma Forall_filter_keep {A} (P Q : A → Prop) `{∀ x, Decision (Q x)}
    (l : list A) :
  Forall P l → Forall P (filter Q l).
Proof.
  rewrite !Forall_forall. intros HP x [_ Hx]%list_elem_of_filter. by apply HP.
Qed.

Lemma update_entry_keeps entry_id success mood journal e :
  e_id (update_entry entry_id success mood journal e) = e_id e
  ∧ e_habit_id (update_entry entry_id success mood journal e) = e_habit_id e
  ∧ e_date (update_entry entry_id success mood journal e) = e_date e.
Proof. unfold update_entry. by case_bool_decide. Qed.

Lemma db_ok_update db entry_id success mood journal :
  db_ok db →
  db_ok (Database (habits db)
           (update_entry entry_id success mood journal <$> entries db)).
Proof.
  intros [Hh He Hthere Hdates Hone].
  pose proof (update_entry_keeps entry_id success mood journal) as Hkeep.
  split; cbn [habits entries].
  - done.
  - rewrite <- list_fmap_compose.
    rewrite (list_fmap_ext _ e_id); [done|]. intros i e _. apply Hkeep.
  - rewrite Forall_fmap. eapply Forall_impl; [exact Hthere|].
    intros e. cbn [compose]. by destruct (Hkeep e) as (_ & -> & _).
  - rewrite Forall_fmap. eapply Forall_impl; [exact Hdates|].
    intros e. cbn [compose]. by destruct (Hkeep e) as (_ & _ & ->).
  - rewrite <- list_fmap_compose.
    rewrite (list_fmap_ext _ (λ e, (e_habit_id e, e_date e))); [done|].
    intros i e _. cbn [compose]. by destruct (Hkeep e) as (_ & -> & ->).
Qed.

Lemma db_ok_delete_entries db (P : entry_row → Prop)
    `{∀ e, Decision (P e)} :
  db_ok db → db_ok (Database (habits db) (filter P (entries db))).
Proof.
  intros [Hh He Hthere Hdates Hone]. split; cbn [habits entries].
  - done.
  - by apply NoDup_fmap_filter.
  - by apply Forall_filter_keep.
  - by apply Forall_filter_keep.
  - by apply NoDup_fmap_filter.
Qed.

Lemma db_ok_delete_habit db habit_id :
  db_ok db →
  db_ok (Database (filter (λ h, h_id h ≠ habit_id) (habits db))
                  (filter (λ e, e_habit_id e ≠ habit_id) (entries db))).
Proof.
  intros [Hh He Hthere Hdates Hone]. split; cbn [habits entries].
  - by apply NoDup_fmap_filter.
  - by apply NoDup_fmap_filter.
  - rewrite Forall_forall in Hthere. apply Forall_forall.
    intros e [Hne He']%list_elem_of_filter.
    apply Exists_exists. apply Hthere, Exists_exists in He' as (h & Hin & Hid).
    exists h. split; [|done]. apply list_elem_of_filter. split; [congruence|done].
  - by apply Forall_filter_keep.
  - by apply NoDup_fmap_filter.
Qed.

Lemma db_ok_insert db row :
  db_ok db →
  e_id row ∉ e_id <$> entries db →
  Exists (λ h, h_id h = e_habit_id row) (habits db) →
  (∃ t, calendar_day t ∧ e_date row = strftime_ymd t) →
  filter (λ e, e_habit_id e = e_habit_id row ∧ e_date e = e_date row)
         (entries db) = [] →
  db_ok (Database (habits db) (entries db ++ [row])).
Proof.
  intros [Hh He Hthere Hdates Hone] Hfresh Hhabit Hdate Hnone.
  split; cbn [habits entries].
  - done.
  - rewrite fmap_app. apply NoDup_app. split_and!; [done| |apply NoDup_singleton].
    intros x Hx ->%list_elem_of_singleton. by apply Hfresh.
  - apply Forall_app. split; [done|]. by apply Forall_singleton.
  - apply Forall_app. split; [done|]. by apply Forall_singleton.
  - rewrite fmap_app. apply NoDup_app. split_and!; [done| |apply NoDup_singleton].
    intros x (e & -> & Hin)%list_elem_of_fmap Heq%list_elem_of_singleton.
    assert (e ∈ filter (λ e, e_habit_id e = e_habit_id row
                             ∧ e_date e = e_date row) (entries db)) as Hsel
      by (apply list_elem_of_filter; split; [by simplify_eq|done]).
    rewrite Hnone in Hsel. by apply elem_of_nil in Hsel.
Qed.

Lemma next_entry_id_above rows e :
  e ∈ rows → e_id e < next_entry_id rows.
Proof.
  unfold next_entry_id. induction rows as [|r rows IH]; [by intros ?%elem_of_nil|].
  cbn [foldr]. intros [->|Hin%IH]%elem_of_cons; lia.
Qed.

Lemma next_entry_id_fresh rows : next_entry_id rows ∉ e_id <$> rows.
Proof.
  intros (e & Heq & Hin%next_entry_id_above)%list_elem_of_fmap. lia.
Qed.

Lemma calendar_day_example : calendar_day (2025, 1, 5).
Proof. unfold calendar_day. split_and!; vm_compute; discriminate. Qed.

Lemma example_db_ok : db_ok example_db.
Proof.
  split.
  - apply (bool_decide_unpack _). vm_compute. exact I.
  - apply (bool_decide_unpack _). vm_compute. exact I.
  - apply (bool_decide_unpack _). vm_compute. exact I.
  - cbn [example_db entries]. repeat apply Forall_cons_2; [..|apply Forall_nil_2].
    + exists (2025, 1, 3). split; [|reflexivity].
      unfold calendar_day. split_and!; vm_compute; discriminate.
    + exists (2025, 1, 3). split; [|reflexivity].
      unfold calendar_day. split_and!; vm_compute; discriminate.
    + exists (2025, 1, 4). split; [|reflexivity].
      unfold calendar_day. split_and!; vm_compute; discriminate.
  - apply (bool_decide_unpack _). vm_compute. exact I.
Qed.

(** X13: a consistent database stays consistent under every request to
    [add_entry], [edit_entry], [delete_entry] or [delete_habit] that
    returns: identifiers stay unique, every entry keeps a habit, every date
    stays a calendar day as [strftime] writes it, and no habit gets two
    entries for one date.  For the insertion of [add_entry] this needs the
    identifier given by the database to be a new one and the two readings
    of the clock to fall on the same calendar day. *)
Theorem requests_keep_database_consistent
    (int_of_field : string → outcome Z) (new_entry_id : list entry_row → Z)
    (today : datetime_clock) (db db' : database) (session_user_id : option Z)
    (req : request) (resp : response) :
  (∀ rows, new_entry_id rows ∉ e_id <$> rows) →
  calendar_day (today 0%nat) →
  today 1%nat = today 0%nat →
  db_ok db →
  handle int_of_field new_entry_id today db session_user_id req
    = Return (resp, db') →
  db_ok db'.
Proof.
  intros Hfresh Hday Hclock Hok Hrun.
  destruct req as [habit_id m form|entry_id m form|entry_id|habit_id];
    cbn [handle] in Hrun.
  - unfold add_entry in Hrun.
    destruct (logged_in session_user_id) as [u|]; [|unchanged Hrun].
    destruct (select_habit db habit_id u) as [|h hs] eqn:Hsel;
      [unchanged Hrun|].
    destruct m; [unchanged Hrun|].
    destruct (_ || _); [unchanged Hrun|].
    destruct (filter _ (entries db)) eqn:Hnone; [|unchanged Hrun].
    destruct (int_of_field _) as [n|]; [|done].
    returned Hrun. rewrite Hclock.
    apply select_habit_owns in Hsel as (Hh & Hid & _).
    apply db_ok_insert; cbn [e_id e_habit_id e_date]; [done|apply Hfresh| | |done].
    + apply Exists_exists. by exists h.
    + by exists (today 0%nat).
  - unfold edit_entry in Hrun.
    destruct (logged_in session_user_id) as [u|]; [|unchanged Hrun].
    destruct (select_entry_of_user db entry_id u) as [|[e0 h0] rows];
      [unchanged Hrun|].
    destruct (clean_row e0) as [e|]; [|done].
    cbn [mbind outcome_bind] in Hrun.
    destruct m; [unchanged Hrun|].
    destruct (_ || _); [unchanged Hrun|].
    destruct (int_of_field _) as [n|]; [|done].
    returned Hrun. by apply db_ok_update.
  - unfold delete_entry in Hrun.
    destruct (logged_in session_user_id) as [u|]; [|unchanged Hrun].
    destruct (filter _ (entries db)) as [|e0 rows]; [unchanged Hrun|].
    destruct (select_habit db (e_habit_id e0) u); [unchanged Hrun|].
    returned Hrun. by apply db_ok_delete_entries.
  - unfold delete_habit in Hrun.
    destruct (logged_in session_user_id) as [u|]; [|unchanged Hrun].
    destruct (select_habit db habit_id u); [unchanged Hrun|].
    returned Hrun. by apply db_ok_delete_habit.
Qed.

Lemma requests_keep_database_consistent_witness :
  db_ok (Database (habits example_db)
           (entries example_db
            ++ [EntryRow 4 1 "2025-01-05" 1 "calm" "a quiet day"])).
Proof.
  apply (requests_keep_database_consistent int_of_digits next_entry_id
           (λ _, (2025, 1, 5)) example_db _ (Some 10)
           (AddEntry 1 POST example_form) RedirectDashboard).
  - apply next_entry_id_fresh.
  - apply calendar_day_example.
  - reflexivity.
  - apply example_db_ok.
  - vm_compute. reflexivity.
Defined.

(** ** The dashboard of a consistent database *)

Lemma clean_row_strftime e t :
  calendar_day t → e_date e = strftime_ymd t → clean_row e = Return e.
Proof.
  intros (Hy & Hm & Hd) He. pose proof (days_in_month_le_31 t.1.1 t.1.2) as H31.
  assert (Hd31 : 1 ≤ t.2 ≤ 31) by lia.
  unfold clean_row, PyStr.split. rewrite He. unfold strftime_ymd.
  rewrite (split_from_no_space _ (strftime_no_space _ _ _ Hy Hm Hd31) []).
  cbn [rev app].
  pose proof (re_ymd_strftime _ _ _ Hy Hm Hd31) as Hre.
  destruct (list_ascii_of_string (strftime t.1.1 t.1.2 t.2)) as [|c cs] eqn:Hs;
    [discriminate Hre|].
  rewrite <- Hs, string_of_list_ascii_of_string.
  unfold strftime_ymd in He. rewrite <- He. by destruct e.
Qed.

Lemma clean_rows_strftime rows :
  Forall (λ e, ∃ t, calendar_day t ∧ e_date e = strftime_ymd t) rows →
  clean_rows rows = Return rows.
Proof.
  induction 1 as [|e rows (t & Ht & He) _ IH]; [done|].
  cbn [clean_rows]. rewrite (clean_row_strftime e t Ht He), IH. done.
Qed.

Lemma well_formed_strftime e t :
  calendar_day t → e_date e = strftime_ymd t → well_formed (to_entry e).
Proof.
  intros (Hy & Hm & Hd) He. exists (ord t.1.1 t.1.2 t.2).
  unfold to_entry. rewrite He. by apply entry_date_strftime.
Qed.

(** X14: the dashboard of a consistent database never fails: for any rows
    taken from the table of entries, in any order, the cleaning loop
    leaves every row as it is, [calculate_streak] returns, and the view
    holds the rows, the two streaks, the first row and the mood counts. *)
Theorem consistent_database_dashboard_returns
    (today : clock) (db : database) (rows : list entry_row) :
  db_ok db →
  (∀ e, e ∈ rows → e ∈ entries db) →
  ∃ c l,
    calculate_streak today (to_entry <$> rows) = Return (c, l)
    ∧ dashboard_habit today rows
      = Return (HabitView rows c l (head rows) (mood_counts rows)).
Proof.
  intros Hok Hrows.
  assert (Hdates : Forall (λ e, ∃ t, calendar_day t ∧ e_date e = strftime_ymd t)
                          rows).
  { apply Forall_forall. intros e He.
    pose proof (ok_dates db Hok) as Hall. rewrite Forall_forall in Hall.
    by apply Hall, Hrows. }
  destruct (calculate_streak_well_formed today (to_entry <$> rows))
    as (c & l & Hcalc).
  { rewrite Forall_fmap. eapply Forall_impl; [exact Hdates|].
    intros e (t & Ht & He). by apply (well_formed_strftime e t). }
  exists c, l. split; [exact Hcalc|].
  unfold dashboard_habit. rewrite (clean_rows_strftime rows Hdates).
  cbn [mbind outcome_bind]. rewrite Hcalc. reflexivity.
Qed.

Lemma consistent_database_dashboard_returns_witness :
  ∃ c l,
    calculate_streak (λ _, ord 2025 1 4)
      (to_entry <$> [EntryRow 3 1 "2025-01-04" 1 "calm" "fine";
                     EntryRow 1 1 "2025-01-03" 1 "happy" "good"])
      = Return (c, l)
    ∧ dashboard_habit (λ _, ord 2025 1 4)
        [EntryRow 3 1 "2025-01-04" 1 "calm" "fine";
         EntryRow 1 1 "2025-01-03" 1 "happy" "good"]
      = Return (HabitView [EntryRow 3 1 "2025-01-04" 1 "calm" "fine";
                           EntryRow 1 1 "2025-01-03" 1 "happy" "good"]
                          c l
                          (head [EntryRow 3 1 "2025-01-04" 1 "calm" "fine";
                                 EntryRow 1 1 "2025-01-03" 1 "happy" "good"])
                          (mood_counts
                             [EntryRow 3 1 "2025-01-04" 1 "calm" "fine";
                              EntryRow 1 1 "2025-01-03" 1 "happy" "good"])).
Proof.
  apply (consistent_database_dashboard_returns (λ _, ord 2025 1 4) example_db).
  - apply example_db_ok.
  - apply Forall_forall. apply (bool_decide_unpack _). vm_compute. exact I.
Defined.

(** * The chat *)

Lemma starts_with_spec k : ∀ s,
  starts_with k s = true ↔ ∃ post, s = k ++ post.
Proof.
  induction k as [|c k IH]; intros s; cbn [starts_with].
  - split; [by exists s|done].
  - destruct s as [|d s]; [split; [done|by intros [? ?]]|].
    rewrite andb_true_iff, bool_decide_eq_true, IH. split.
    + intros [-> [post ->]]. by exists post.
    + intros [post [= -> ->]]. split; [done|by exists post].
Qed.

Lemma contains_spec k : ∀ s,
  contains k s = true ↔ ∃ pre post, s = pre ++ k ++ post.
Proof.
  induction s as [|d s IH]; cbn [contains]; rewrite orb_true_iff.
  - rewrite starts_with_spec. split.
    + intros [[post ->]|?]; [by exists [], post|done].
    + intros (pre & post & Heq). left.
      destruct pre; [by exists post|done].
  - rewrite starts_with_spec, IH. split.
    + intros [[post ->]|(pre & post & ->)]; [by exists [], post|].
      by exists (d :: pre), post.
    + intros ([|d' pre] & post & Heq).
      * left. by exists post.
      * right. injection Heq as -> ->. by exists pre, post.
Qed.

Lemma contains_in_context k s pre post :
  contains k s = true → contains k (pre ++ s ++ post) = true.
Proof.
  rewrite !contains_spec. intros (pre' & post' & ->).
  exists (pre ++ pre'), (post' ++ post). by rewrite <- !app_assoc.
Qed.

Lemma any_keyword_in_context keywords s pre post :
  any_keyword keywords s = true →
  any_keyword keywords (pre ++ s ++ post) = true.
Proof.
  unfold any_keyword. rewrite !existsb_exists.
  intros (k & Hk & Hc). exists k. split; [done|].
  by apply contains_in_context.
Qed.

Lemma lower_app s t : lower (s ++ t) = lower s ++ lower t.
Proof. apply fmap_app. Qed.

(** X15: a message that gets the reply to a struggle keeps getting it
    whatever is written before and after it: the keywords of a struggle
    are looked for first and anywhere in the message, in any letter
    case. *)
Theorem struggle_reply_in_any_context (user_row : list string)
    (chat chat' : chat_messages) (before message after : string) :
  (get_ai_response user_row chat (Some message)).1
    = Reply Struggle (default "Pioneer" (head user_row)) →
  (get_ai_response user_row chat' (Some (before +:+ message +:+ after))).1
    = Reply Struggle (default "Pioneer" (head user_row)).
Proof.
  unfold get_ai_response. cbn [fst default]. intros [= Hintent]. f_equal.
  unfold id. rewrite !list_ascii_of_string_app, !lower_app.
  unfold intent_of in *.
  destruct (any_keyword STRUGGLE (lower (list_ascii_of_string message)))
    eqn:Hs.
  - by rewrite (any_keyword_in_context _ _ _ _ Hs).
  - repeat case_match; done.
Qed.

Lemma struggle_reply_in_any_context_witness :
  (get_ai_response ["ada"] None
     (Some ("I feel good but " +:+ "the URGE is back" +:+ ", hello"))).1
  = Reply Struggle (default "Pioneer" (head ["ada"])).
Proof.
  apply (struggle_reply_in_any_context ["ada"] None None).
  vm_compute. reflexivity.
Defined.

Lemma initialize_chat_history_Some chat :
  ∃ messages, initialize_chat_history chat = Some messages.
Proof. destruct chat; by eexists. Qed.

Lemma since_reset_snoc reqs req :
  since_reset (reqs ++ [req])
  = match req with ResetChat => [] | _ => since_reset reqs ++ [req] end.
Proof. unfold since_reset. by rewrite foldl_app. Qed.

Lemma chat_session_snoc user_row reqs req :
  chat_session user_row (reqs ++ [req])
  = chat_step user_row (chat_session user_row reqs) req.
Proof. unfold chat_session. by rewrite foldl_app. Qed.

Lemma since_reset_only_resets reqs :
  existsb opens_history reqs = false → since_reset reqs = [].
Proof.
  induction reqs as [|req reqs IH] using rev_ind; [done|].
  rewrite existsb_app, since_reset_snoc. cbn [existsb].
  rewrite orb_false_r. intros [Hreqs Hreq]%orb_false_iff.
  by destruct req.
Qed.

(** X16: the history in the session of a user is the system message
    followed by the exchanges made since the last reset, each one the
    message as it was sent and the reply that was returned for it; there is
    no history before the chat page is opened or a question is asked, a
    reset alone does not create one. *)
Theorem chat_history_since_reset (user_row : list string)
    (reqs : list chat_request) :
  chat_session user_row reqs
  = if existsb opens_history reqs
    then Some (Message "system" SystemPrompt
               :: (since_reset reqs ≫= exchange user_row))
    else None.
Proof.
  induction reqs as [|req reqs IH] using rev_ind; [done|].
  rewrite chat_session_snoc, since_reset_snoc, existsb_app, IH.
  cbn [existsb]. rewrite orb_false_r.
  destruct (existsb opens_history reqs) eqn:Hopen.
  - destruct req; cbn [orb chat_step initialize_chat_history reset_chat];
      [|unfold get_ai_response; cbn [snd initialize_chat_history fmap
                                      option_fmap option_map]|done].
    + by rewrite bind_app, app_nil_r.
    + rewrite bind_app. cbn [mbind list_bind exchange]. 
      unfold get_ai_response. cbn [fst]. by rewrite app_nil_r.
  - rewrite (since_reset_only_resets reqs Hopen).
    destruct req; cbn [orb opens_history chat_step initialize_chat_history
                       reset_chat]; done.
Qed.
